(** * The authenticated HTTP client of the Rockstar plugin (src/http_client.py)

    A shallow embedding of [Token], of the cookie handling and of
    [AuthenticatedHttpClient], followed by the properties of the session
    manager that the specification states about them.

    Python objects are modelled by records, [None] by [option], exceptions by
    an error result that keeps the state reached so far (a Python exception
    does not undo mutations), wall-clock instants by [Z], the identity
    provider by an oracle that scripts the outcome of every network call, and
    logging and the host callbacks by a trace of events. *)

From Stdlib Require Import ZArith String Ascii List Bool Lia.
From stdpp Require Import base gmap strings list fin_maps.
Import ListNotations.

Set Warnings "-register-all".
Local Open Scope string_scope.
Local Open Scope Z_scope.

(** ** Python values that cross the client *)

(** A parsed JSON document ([resp.json()]). *)
Inductive Json : Type :=
| JNull
| JBool (b : bool)
| JNum (n : Z)
| JStr (s : string)
| JArr (items : list Json)
| JObj (fields : list (string * Json)).

(** The exceptions the client can meet. [ProviderError] stands for whatever
    the transport raises (time-out, HTTP error, ...); its number tells two
    failures apart. *)
Inductive Exn : Type :=
| KeyError (key : string)
| TypeError
| AttributeError
| IndexError
| ValueError
| CookieConflictError
| ProviderError (code : nat).

Inductive Result (A : Type) : Type :=
| Ok (a : A)
| Raise (e : Exn).
Arguments Ok {A} a.
Arguments Raise {A} e.

Definition json_eqb_str (j : Json) (s : string) : bool :=
  match j with
  | JStr t => String.eqb t s
  | _ => false
  end.

(** [json.loads] keeps the last binding of a repeated key. *)
Fixpoint obj_lookup (k : string) (fields : list (string * Json)) : option Json :=
  match fields with
  | [] => None
  | (k', v) :: rest =>
      match obj_lookup k rest with
      | Some v' => Some v'
      | None => if String.eqb k' k then Some v else None
      end
  end.

(** [j[k]] for a string key [k]. *)
Definition json_getitem (j : Json) (k : string) : Result Json :=
  match j with
  | JObj fields =>
      match obj_lookup k fields with
      | Some v => Ok v
      | None => Raise (KeyError k)
      end
  | _ => Raise TypeError
  end.

(** [j[0]]. *)
Definition json_first (j : Json) : Result Json :=
  match j with
  | JArr (x :: _) => Ok x
  | JArr [] => Raise IndexError
  | JObj fields => Raise (KeyError "0")
  | JStr (String c _) => Ok (JStr (String c EmptyString))
  | JStr EmptyString => Raise IndexError
  | _ => Raise TypeError
  end.

Fixpoint chars_of (s : string) : list Json :=
  match s with
  | EmptyString => []
  | String c rest => JStr (String c EmptyString) :: chars_of rest
  end.

Fixpoint obj_keys (fields : list (string * Json)) : list string :=
  match fields with
  | [] => []
  | (k, _) :: rest =>
      if existsb (String.eqb k) (obj_keys rest) then obj_keys rest
      else k :: obj_keys rest
  end.

(** What [for x in j] visits: the items of a list, the keys of a dict, the
    characters of a string; anything else is not iterable. *)
Definition json_iter (j : Json) : Result (list Json) :=
  match j with
  | JArr items => Ok items
  | JObj fields => Ok (map JStr (obj_keys fields))
  | JStr s => Ok (chars_of s)
  | _ => Raise TypeError
  end.

(** ** Token *)

Record Token : Type := mkToken {
  _token : option string;
  _expires : option Z
}.

(** [Token()]: both class attributes are [None]. *)
Definition Token_new : Token := mkToken None None.

Definition set_token (token : option string) (expiration : option Z) (_ : Token) : Token :=
  mkToken token expiration.

Definition get_token (t : Token) : option string := _token t.

Definition get_expiration (t : Token) : option Z := _expires t.

(** [Token.expired] at clock reading [now]: [self._expires <= time()].
    Python 3 refuses to order [None] and a float. *)
Definition expired (t : Token) (now : Z) : Result bool :=
  match _expires t with
  | Some e => Ok (e <=? now)
  | None => Raise TypeError
  end.

(** ** The session's cookie jar

    [requests.Session().cookies] is a [RequestsCookieJar]: cookies keyed by
    domain, path and name.  The jar is kept as the list of its cookies;
    the operations below are the ones of the [requests] library that the
    client calls. *)

Record Cookie : Type := mkCookie {
  cookie_name : string;
  cookie_value : string;
  cookie_domain : string;
  cookie_path : string
}.

Definition Jar : Type := list Cookie.

Definition same_slot (a b : Cookie) : bool :=
  String.eqb (cookie_name a) (cookie_name b)
  && String.eqb (cookie_domain a) (cookie_domain b)
  && String.eqb (cookie_path a) (cookie_path b).

(** [del jar[name]]: every cookie of that name goes, whatever its domain
    and path; no error when there is none. *)
Definition remove_cookie_by_name (name : string) (jar : Jar) : Jar :=
  List.filter (fun c => negb (String.eqb (cookie_name c) name)) jar.

Definition dquote : ascii := ascii_of_nat 34.
Definition backslash : ascii := ascii_of_nat 92.

Fixpoint last_char (s : string) : option ascii :=
  match s with
  | EmptyString => None
  | String c EmptyString => Some c
  | String _ rest => last_char rest
  end.

Definition quoted (s : string) : bool :=
  match s, last_char s with
  | String c _, Some d => Ascii.eqb c dquote && Ascii.eqb d dquote
  | _, _ => false
  end.

(** Python's [replace] of every backslash followed by a double quote by
    nothing. *)
Fixpoint strip_escaped_quotes (s : string) : string :=
  match s with
  | EmptyString => EmptyString
  | String c rest =>
      match rest with
      | String d rest' =>
          if Ascii.eqb c backslash && Ascii.eqb d dquote
          then strip_escaped_quotes rest'
          else String c (strip_escaped_quotes rest)
      | EmptyString => s
      end
  end.

(** The cookie object the jar keeps when [jar.set] is given the fields of
    [c]: a value in double quotes loses its escaped quotes. *)
Definition create_cookie (c : Cookie) : Cookie :=
  if quoted (cookie_value c)
  then mkCookie (cookie_name c) (strip_escaped_quotes (cookie_value c))
                (cookie_domain c) (cookie_path c)
  else c.

(** [jar.set_cookie(c)]: one cookie per domain, path and name. *)
Fixpoint set_cookie (c : Cookie) (jar : Jar) : Jar :=
  match jar with
  | [] => [c]
  | old :: rest => if same_slot old c then c :: rest else old :: set_cookie c rest
  end.

Definition jar_set (c : Cookie) (jar : Jar) : Jar := set_cookie (create_cookie c) jar.

(** [jar[name]]: the value of the only cookie of that name; two of them
    conflict, and an empty value counts as missing. *)
Definition jar_getitem (name : string) (jar : Jar) : Result string :=
  match List.filter (fun c => String.eqb (cookie_name c) name) jar with
  | [] => Raise (KeyError name)
  | [c] => if String.eqb (cookie_value c) EmptyString then Raise (KeyError name)
           else Ok (cookie_value c)
  | _ :: _ :: _ => Raise CookieConflictError
  end.

(** [name in jar]. *)
Definition jar_contains (name : string) (jar : Jar) : bool :=
  match jar_getitem name jar with
  | Ok _ => true
  | Raise CookieConflictError => true
  | Raise _ => false
  end.

(** [re.search] with the pattern ^rsso finds a match exactly when [name]
    starts with rsso. *)
Definition is_rsso (name : string) : bool := String.prefix "rsso" name.

Record Session : Type := mkSession {
  cookies : Jar;
  max_redirects : Z
}.

Definition with_cookies (jar : Jar) (s : Session) : Session :=
  mkSession jar (max_redirects s).

(** ** The client and the world around it *)

(** What the slot [_auth_lost_callback] holds when it is not [None]: the
    callable a host registers, or the [True] that the retry paths store
    there.  Both are truthy. *)
Inductive AuthLost : Type :=
| FlagTrue
| HostCallback (id : nat).

(** The values of the credentials dictionary.  The two pickled entries are
    kept as the object that was pickled and hex-encoded. *)
Inductive CredVal : Type :=
| CJson (j : Json)
| CStr (s : option string)
| CPickledSession (s : option Session)
| CPickledToken (t : Token).

Record Client : Type := mkClient {
  _debug_always_refresh : bool;
  bearer : option Json;
  refresh : option Json;
  refresh_token : Token;
  _fingerprint : option string;
  user : option nat;              (* a reference to a dictionary of the heap *)
  _current_session : option Session;
  _auth_lost_callback : option AuthLost;
  _current_auth_token : option string;
  _first_auth : bool
}.

(** [AuthenticatedHttpClient.__init__].  The two [aiohttp] jars and the
    time-zone offset take no part in the operations embedded below. *)
Definition AuthenticatedHttpClient_init : Client :=
  mkClient false None None Token_new None None None None None true.

Definition with_bearer (b : option Json) (c : Client) : Client :=
  mkClient (_debug_always_refresh c) b (refresh c) (refresh_token c) (_fingerprint c)
           (user c) (_current_session c) (_auth_lost_callback c)
           (_current_auth_token c) (_first_auth c).

Definition with_refresh (r : option Json) (c : Client) : Client :=
  mkClient (_debug_always_refresh c) (bearer c) r (refresh_token c) (_fingerprint c)
           (user c) (_current_session c) (_auth_lost_callback c)
           (_current_auth_token c) (_first_auth c).

Definition with_refresh_token (t : Token) (c : Client) : Client :=
  mkClient (_debug_always_refresh c) (bearer c) (refresh c) t (_fingerprint c)
           (user c) (_current_session c) (_auth_lost_callback c)
           (_current_auth_token c) (_first_auth c).

Definition with_fingerprint (f : option string) (c : Client) : Client :=
  mkClient (_debug_always_refresh c) (bearer c) (refresh c) (refresh_token c) f
           (user c) (_current_session c) (_auth_lost_callback c)
           (_current_auth_token c) (_first_auth c).

Definition with_user (u : option nat) (c : Client) : Client :=
  mkClient (_debug_always_refresh c) (bearer c) (refresh c) (refresh_token c)
           (_fingerprint c) u (_current_session c) (_auth_lost_callback c)
           (_current_auth_token c) (_first_auth c).

Definition with_session (s : option Session) (c : Client) : Client :=
  mkClient (_debug_always_refresh c) (bearer c) (refresh c) (refresh_token c)
           (_fingerprint c) (user c) s (_auth_lost_callback c)
           (_current_auth_token c) (_first_auth c).

Definition with_auth_lost (a : option AuthLost) (c : Client) : Client :=
  mkClient (_debug_always_refresh c) (bearer c) (refresh c) (refresh_token c)
           (_fingerprint c) (user c) (_current_session c) a
           (_current_auth_token c) (_first_auth c).

Definition with_auth_token (t : option string) (c : Client) : Client :=
  mkClient (_debug_always_refresh c) (bearer c) (refresh c) (refresh_token c)
           (_fingerprint c) (user c) (_current_session c) (_auth_lost_callback c)
           t (_first_auth c).

(** One scripted answer of the outside world to a network call. *)
Record Reply : Type := mkReply {
  reply_exn : option Exn;         (* the call raises *)
  reply_cookies : list Cookie;    (* cookies the response sets in a session *)
  reply_text : string;            (* [resp.text] *)
  reply_json : option Json        (* [resp.json()]; [None] when the body is not JSON *)
}.

Inductive Level : Type := Debug | Warning | Error.

(** The pieces a log message is concatenated from. *)
Inductive LogPart : Type :=
| Text (s : string)
| Repr (e : Exn)
| Str (j : Json).

(** Who sends a request: [HttpClient.request] of the host library, the
    stored [requests] session, or a throw-away [requests.Session()]. *)
Inductive Channel : Type := Host | InSession | Plain.

Inductive Event : Type :=
| Log (level : Level) (message : list LogPart)
| Traceback (e : Exn)
| Request (via : Channel) (method url : string) (credential : list LogPart)
| StoreCredentials (creds : nat) (snapshot : gmap string CredVal).

Record World : Type := mkWorld {
  client : Client;
  heap : gmap nat (gmap string CredVal);   (* the dictionaries, by reference *)
  next_ref : nat;
  clock : Z;                               (* what [time()] returns *)
  provider : nat -> Reply;                 (* the answer to the n-th network call *)
  calls : nat;                             (* network calls made so far *)
  trace : list Event                       (* newest first *)
}.

Definition with_client (c : Client) (w : World) : World :=
  mkWorld c (heap w) (next_ref w) (clock w) (provider w) (calls w) (trace w).

Definition with_heap (h : gmap nat (gmap string CredVal)) (n : nat) (w : World) : World :=
  mkWorld (client w) h n (clock w) (provider w) (calls w) (trace w).

Definition with_clock (t : Z) (w : World) : World :=
  mkWorld (client w) (heap w) (next_ref w) t (provider w) (calls w) (trace w).

Definition with_call (w : World) : World :=
  mkWorld (client w) (heap w) (next_ref w) (clock w) (provider w) (S (calls w)) (trace w).

Definition with_event (ev : Event) (w : World) : World :=
  mkWorld (client w) (heap w) (next_ref w) (clock w) (provider w) (calls w) (ev :: trace w).

(** A manager just constructed, in a world with the given provider script
    and clock. *)
Definition fresh_world (script : nat -> Reply) (now : Z) : World :=
  mkWorld AuthenticatedHttpClient_init ∅ 0%nat now script 0%nat [].

(** ** Computations that mutate the world and may raise *)

Definition M (A : Type) : Type := World -> Result A * World.

Definition ret {A} (a : A) : M A := fun w => (Ok a, w).

Definition raise {A} (e : Exn) : M A := fun w => (Raise e, w).

Definition bind {A B} (m : M A) (k : A -> M B) : M B :=
  fun w => match m w with
           | (Ok a, w') => k a w'
           | (Raise e, w') => (Raise e, w')
           end.

(** [try: m except Exception as e: handler e]. *)
Definition try_except {A} (m : M A) (handler : Exn -> M A) : M A :=
  fun w => match m w with
           | (Ok a, w') => (Ok a, w')
           | (Raise e, w') => handler e w'
           end.

Declare Scope py_scope.
Delimit Scope py_scope with py.
Notation "x <- m ;; k" := (bind m (fun x => k))
  (at level 100, m at next level, right associativity) : py_scope.
Notation "m ;; k" := (bind m (fun _ => k))
  (at level 100, right associativity) : py_scope.
Local Open Scope py_scope.

Definition lift {A} (r : Result A) : M A := fun w => (r, w).

Definition get_client : M Client := fun w => (Ok (client w), w).

Definition modify_client (f : Client -> Client) : M unit :=
  fun w => (Ok tt, with_client (f (client w)) w).

Definition emit (ev : Event) : M unit := fun w => (Ok tt, with_event ev w).

Definition log (level : Level) (message : list LogPart) : M unit :=
  emit (Log level message).

Definition print_exc (e : Exn) : M unit := emit (Traceback e).

Definition time : M Z := fun w => (Ok (clock w), w).

(** A network call: the request leaves, the provider's next answer comes
    back, and a failed call raises. *)
Definition network (via : Channel) (method url : string) (credential : list LogPart)
  : M Reply :=
  fun w =>
    let r := provider w (calls w) in
    let w' := with_call (with_event (Request via method url credential) w) in
    match reply_exn r with
    | Some e => (Raise e, w')
    | None => (Ok r, w')
    end.

(** [self._current_session], an [AttributeError] later when it is [None]. *)
Definition session : M Session :=
  c <- get_client ;;
  match _current_session c with
  | Some s => ret s
  | None => raise AttributeError
  end.

Definition set_jar (jar : Jar) : M unit :=
  modify_client (fun c => with_session (option_map (with_cookies jar) (_current_session c)) c).

(** A request through the stored session: the cookies of the response
    enter the session's jar. *)
Definition session_send (method url : string) (credential : list LogPart) : M Reply :=
  _ <- session ;;
  r <- network InSession method url credential ;;
  s <- session ;;
  set_jar (fold_left (fun jar c => set_cookie c jar) (reply_cookies r) (cookies s)) ;;
  ret r.

Definition resp_json (r : Reply) : M Json :=
  match reply_json r with
  | Some j => ret j
  | None => raise ValueError
  end.

Definition dict_setitem (ref : nat) (key : string) (v : CredVal) : M unit :=
  fun w => (Ok tt, with_heap (<[ref := <[key := v]> (default ∅ (heap w !! ref))]> (heap w))
                             (next_ref w) w).

Definition new_dict (d : gmap string CredVal) : M nat :=
  fun w => (Ok (next_ref w), with_heap (<[next_ref w := d]> (heap w)) (S (next_ref w)) w).

(** The host's [store_credentials] callback, given the dictionary [creds];
    the event keeps what the dictionary held at the call. *)
Definition _store_credentials (creds : nat) : M unit :=
  fun w => (Ok tt, with_event (StoreCredentials creds (default ∅ (heap w !! creds))) w).

(** ** AuthenticatedHttpClient *)

Definition get_credentials : M nat :=
  c <- get_client ;;
  match user c with
  | None => raise TypeError      (* item assignment on [None] *)
  | Some creds =>
      dict_setitem creds "session_object" (CPickledSession (_current_session c)) ;;
      dict_setitem creds "current_auth_token" (CStr (_current_auth_token c)) ;;
      dict_setitem creds "refresh_token" (CPickledToken (refresh_token c)) ;;
      dict_setitem creds "fingerprint" (CStr (_fingerprint c)) ;;
      ret creds
  end.

(** The loop of [update_cookie] over the session's cookies: the iterator
    of the jar walks copies of the jar's inner tables taken as it goes, and a
    deletion by name removes the cookie being visited and its namesakes, so
    every cookie met is one of the jar at the start and visiting one already
    deleted deletes nothing. *)
Fixpoint drop_old_rsso (visit : list Cookie) (jar : Jar) : Jar :=
  match visit with
  | [] => jar
  | old_cookie :: rest =>
      drop_old_rsso rest
        (if is_rsso (cookie_name old_cookie)
         then remove_cookie_by_name (cookie_name old_cookie) jar
         else jar)
  end.

Definition update_cookie (cookie : Cookie) : M unit :=
  (if is_rsso (cookie_name cookie)
   then s <- session ;; set_jar (drop_old_rsso (cookies s) (cookies s))
   else ret tt) ;;
  s <- session ;;
  set_jar (remove_cookie_by_name (cookie_name cookie) (cookies s)) ;;
  s <- session ;;
  set_jar (jar_set cookie (cookies s)).

Definition set_auth_lost_callback (callback : option AuthLost) : M unit :=
  modify_client (with_auth_lost callback).

Definition is_authenticated (c : Client) : bool :=
  match user c, _auth_lost_callback c with
  | Some _, None => true
  | _, _ => false
  end.

Definition set_current_auth_token (token : option string) : M unit :=
  modify_client (with_auth_token token).

Definition get_current_auth_token : M (option string) :=
  c <- get_client ;; ret (_current_auth_token c).

Definition get_named_cookie (cookie_name : string) : M string :=
  s <- session ;; lift (jar_getitem cookie_name (cookies s)).

Definition set_refresh_token (token : string) : M unit :=
  now <- time ;;
  let expiration_time := now + (3600 * 24 * 365 * 20) in
  modify_client (fun c =>
    with_refresh_token (set_token (Some token) (Some expiration_time) (refresh_token c)) c).

Definition set_refresh_token_absolute (token : Token) : M unit :=
  modify_client (with_refresh_token token).

Definition get_refresh_token : M (option string) :=
  c <- get_client ;;
  now <- time ;;
  is_expired <- lift (expired (refresh_token c) now) ;;
  (if is_expired
   then log Debug [Text "ROCKSTAR_REFRESH_EXPIRED: The refresh token has expired!"] ;;
        modify_client (fun c => with_refresh_token (set_token None None (refresh_token c)) c)
   else ret tt) ;;
  c <- get_client ;;
  ret (get_token (refresh_token c)).

Definition set_fingerprint (fingerprint : option string) : M unit :=
  modify_client (with_fingerprint fingerprint).

Definition is_fingerprint_defined (c : Client) : bool :=
  match _fingerprint c with Some _ => true | None => false end.

Definition create_session (stored_credentials : option (gmap string CredVal)) : M unit :=
  match stored_credentials with
  | None => modify_client (with_session (Some (mkSession [] 300)))
  | Some creds =>
      c <- get_client ;;
      match _current_session c with
      | Some _ => ret tt
      | None =>
          match creds !! "session_object" with
          | None => raise (KeyError "session_object")
          | Some (CPickledSession (Some s)) =>
              modify_client (with_session (Some s)) ;;
              set_jar []
          | Some (CPickledSession None) => raise AttributeError
          | Some (CPickledToken _) => raise AttributeError
          | Some (CStr (Some _)) => raise ValueError
          | Some _ => raise TypeError
          end
      end
  end.

(** The first five characters, three stars, the last three characters. *)
Definition redacted (auth : string) : string :=
  substring 0 5 auth ++ "***" ++ substring (String.length auth - 3) 3 auth.

Definition get_user_url : string := "https://www.rockstargames.com/auth/get-user.json".
Definition cors_check_url : string := "https://signin.rockstargames.com/connect/cors/check/rsg".
Definition login_url : string := "https://www.rockstargames.com/auth/login.json".
Definition basic_profile_url : string := "https://scapi.rockstargames.com/profile/getbasicprofile".

Definition _get_user_json (message : option string) : M Json :=
  try_except
    (s <- session ;;
     old_auth <- lift (jar_getitem "ScAuthTokenData" (cookies s)) ;;
     log Debug [Text ("ROCKSTAR_OLD_AUTH: " ++ redacted old_auth)] ;;
     c <- get_client ;;
     token <- match _current_auth_token c with
              | Some t => ret t
              | None => raise TypeError     (* a string plus [None] *)
              end ;;
     resp <- session_send "GET" get_user_url [Text ("ScAuthTokenData=" ++ token)] ;;
     s <- session ;;
     new_auth <- lift (jar_getitem "ScAuthTokenData" (cookies s)) ;;
     log Debug [Text ("ROCKSTAR_NEW_AUTH " ++ redacted new_auth)] ;;
     modify_client (with_auth_token (Some new_auth)) ;;
     (if negb (String.eqb new_auth old_auth)
      then log Warning [Text "ROCKSTAR_AUTH_CHANGE: The ScAuthTokenData value has changed!"] ;;
           c <- get_client ;;
           match user c with
           | Some _ => creds <- get_credentials ;; _store_credentials creds
           | None => ret tt
           end
      else ret tt) ;;
     resp_json resp)
    (fun e =>
       match message with
       | Some m => log Error [Text m]
       | None => log Error [Text "ROCKSTAR_USER_JSON_ERROR: The request to get the get-user.json file resulted in this exception: "; Repr e]
       end ;;
       print_exc e ;;
       raise e).

Definition _get_bearer : M Json :=
  try_except
    (resp_json <- _get_user_json None ;;
     log Debug [Text "ROCKSTAR_AUTH_JSON: "; Str resp_json] ;;
     user_doc <- lift (json_getitem resp_json "user") ;;
     auth_token <- lift (json_getitem user_doc "auth_token") ;;
     new_bearer <- lift (json_getitem auth_token "access_token") ;;
     modify_client (with_bearer (Some new_bearer)) ;;
     user_doc <- lift (json_getitem resp_json "user") ;;
     auth_token <- lift (json_getitem user_doc "auth_token") ;;
     new_refresh <- lift (json_getitem auth_token "refresh_token") ;;
     modify_client (with_refresh (Some new_refresh)) ;;
     ret new_bearer)
    (fun e =>
       log Error [Text "ERROR: The request to refresh credentials resulted in this exception: "; Repr e] ;;
       raise e).

(** The loop of [get_played_games] over [played_games]. *)
Fixpoint collect_pc (played_games : list Json) (return_list : list Json)
  : Result (list Json) :=
  match played_games with
  | [] => Ok return_list
  | game :: rest =>
      match json_getitem game "platform" with
      | Raise e => Raise e
      | Ok platform =>
          if json_eqb_str platform "PC"
          then match json_getitem game "id" with
               | Raise e => Raise e
               | Ok id => collect_pc rest (return_list ++ [id])
               end
          else collect_pc rest return_list
      end
  end.

Definition get_played_games : M (list Json) :=
  try_except
    (resp_json <- _get_user_json None ;;
     user_doc <- lift (json_getitem resp_json "user") ;;
     played_games <- lift (json_getitem user_doc "games_played") ;;
     games <- lift (json_iter played_games) ;;
     lift (collect_pc games []))
    (fun e =>
       log Error [Text "ROCKSTAR_PLAYED_GAMES_ERROR: The request to scrape the user's played games resulted in this exception: "; Repr e] ;;
       raise e).

(** The loop of [refresh_credentials] that looks for the rsso cookie. *)
Fixpoint scan_rsso (visit : list Cookie) (rsso_name : option string)
    (rsso_cookie : gmap string string) : option string * gmap string string :=
  match visit with
  | [] => (rsso_name, rsso_cookie)
  | cookie :: rest =>
      if is_rsso (cookie_name cookie)
      then scan_rsso rest (Some (cookie_name cookie))
                     (<[cookie_name cookie := cookie_value cookie]> rsso_cookie)
      else scan_rsso rest rsso_name rsso_cookie
  end.

Definition refresh_credentials : M unit :=
  try_except
    (s <- session ;;
     let '(rsso_name, rsso_cookie) := scan_rsso (cookies s) None ∅ in
     rmt <- get_refresh_token ;;
     rmt <- match rmt with Some t => ret t | None => raise TypeError end ;;
     name <- match rsso_name with Some n => ret n | None => raise TypeError end ;;
     value <- match rsso_cookie !! name with
              | Some v => ret v
              | None => raise (KeyError name)
              end ;;
     refresh_resp <- session_send "POST" cors_check_url
                       [Text ("RMT=" ++ rmt ++ "; " ++ name ++ "=" ++ value)] ;;
     let refresh_code := reply_text refresh_resp in
     log Debug [Text ("ROCKSTAR_REFRESH_CODE: Got code " ++ refresh_code ++ "!")] ;;
     s <- session ;;
     (if jar_contains "RMT" (cookies s)
      then rmt' <- lift (jar_getitem "RMT" (cookies s)) ;; set_refresh_token rmt'
      else log Debug [Text "ROCKSTAR_RMT_MISSING: The RMT cookie is missing, presumably because the user has not enabled two-factor authentication. Proceeding anyways..."] ;;
           set_refresh_token EmptyString) ;;
     s <- session ;;
     old_auth <- lift (jar_getitem "ScAuthTokenData" (cookies s)) ;;
     set_jar (remove_cookie_by_name "ScAuthTokenData" (cookies s)) ;;
     modify_client (with_auth_token None) ;;
     log Debug [Text ("ROCKSTAR_OLD_AUTH_REFRESH: " ++ old_auth)] ;;
     s <- session ;;
     ts <- lift (jar_getitem "TS019978c2" (cookies s)) ;;
     final_request <- session_send "POST" login_url [Text ("TS019978c2=" ++ ts)] ;;
     final_json <- resp_json final_request ;;
     log Debug [Text "ROCKSTAR_REFRESH_JSON: "; Str final_json] ;;
     s <- session ;;
     new_auth <- lift (jar_getitem "ScAuthTokenData" (cookies s)) ;;
     modify_client (with_auth_token (Some new_auth)) ;;
     log Debug [Text ("ROCKSTAR_NEW_AUTH_REFRESH: " ++ new_auth)] ;;
     (if negb (String.eqb old_auth new_auth)
      then log Debug [Text "ROCKSTAR_REFRESH_SUCCESS: The user has been successfully re-authenticated!"]
      else ret tt))
    (fun e =>
       log Debug [Text "ROCKSTAR_REFRESH_FAILURE: The attempt to re-authenticate the user has failed with the exception ";
                  Repr e; Text ". Logging the user out..."] ;;
       print_exc e ;;
       raise e).

(** The truth value of the slot in a condition. *)
Definition truthy (slot : option AuthLost) : bool :=
  match slot with Some _ => true | None => false end.

(** The conditional at the head of [authenticate]: refresh when the slot
    is truthy or the debug switch is on, then empty the slot. *)
Definition refresh_if_needed : M unit :=
  c <- get_client ;;
  if truthy (_auth_lost_callback c) || _debug_always_refresh c
  then refresh_credentials ;; modify_client (with_auth_lost None)
  else ret tt.

(** The rest of [authenticate] once [self.bearer] is assigned: the
    basic-profile request, the new [self.user], and the call of the
    store-credentials callback. *)
Definition store_basic_profile (b : Json) : M (option nat) :=
  match b with
  | JStr s => log Debug [Text ("ROCKSTAR_HTTP_CHECK: Got bearer token: " ++ s)]
  | _ => raise TypeError
  end ;;
  resp_user_text <-
    try_except
      (resp_user <- network Plain "GET" basic_profile_url [Text "Bearer "; Str b] ;;
       resp_json resp_user)
      (fun e =>
         log Error [Text "ERROR: There was a problem with getting the user information with the token. Exception: "; Repr e] ;;
         print_exc e ;;
         raise e) ;;
  log Debug [Str resp_user_text] ;;
  accounts <- lift (json_getitem resp_user_text "accounts") ;;
  account <- lift (json_first accounts) ;;
  working_dict <- lift (json_getitem account "rockstarAccount") ;;
  display_name <- lift (json_getitem working_dict "displayName") ;;
  rockstar_id <- lift (json_getitem working_dict "rockstarId") ;;
  match display_name with
  | JStr s => log Debug [Text ("ROCKSTAR_HTTP_CHECK: Got display name: " ++ s ++ " / Got Rockstar ID: ");
                         Str rockstar_id]
  | _ => raise TypeError
  end ;;
  ref <- new_dict (<["display_name" := CJson display_name]>
                     (<["rockstar_id" := CJson rockstar_id]> ∅)) ;;
  modify_client (with_user (Some ref)) ;;
  log Debug [Text "ROCKSTAR_STORE_CREDENTIALS: Preparing to store credentials..."] ;;
  creds <- get_credentials ;;
  _store_credentials creds ;;
  c <- get_client ;;
  ret (user c).

Definition authenticate : M (option nat) :=
  refresh_if_needed ;;
  b <- _get_bearer ;;
  modify_client (with_bearer (Some b)) ;;
  store_basic_profile b.

Definition retry_warning (e : Exn) : list LogPart :=
  [Text "WARNING: The request failed with exception "; Repr e;
   Text ". Attempting to refresh credentials..."].

Definition request (method url : string) : M Reply := network Host method url [].

Definition do_request (method url : string) : M Reply :=
  try_except
    (request method url)
    (fun e =>
       log Warning (retry_warning e) ;;
       set_auth_lost_callback (Some FlagTrue) ;;
       authenticate ;;
       request method url).

(** [get_json_from_request_strict] calls itself after a failure; [fuel]
    bounds the depth of that recursion and [None] means the bound was hit
    before the call returned. *)
Fixpoint get_json_from_request_strict (fuel : nat) (url : string)
    (include_default_headers : bool) (additional_headers : list LogPart)
    (w : World) : option (Result Json * World) :=
  match fuel with
  | O => None
  | S fuel' =>
      match (if include_default_headers
             then (b <- _get_bearer ;; ret (additional_headers ++ [Text "Bearer "; Str b])%list)
             else ret additional_headers) w with
      | (Raise e, w1) => Some (Raise e, w1)
      | (Ok headers, w1) =>
          match (resp <- network Plain "GET" url headers ;; resp_json resp) w1 with
          | (Ok j, w2) => Some (Ok j, w2)
          | (Raise e, w2) =>
              match (log Warning (retry_warning e) ;;
                     set_auth_lost_callback (Some FlagTrue) ;;
                     authenticate) w2 with
              | (Raise e', w3) => Some (Raise e', w3)
              | (Ok _, w3) =>
                  get_json_from_request_strict fuel' url include_default_headers
                                               additional_headers w3
              end
          end
      end
  end.

(** ** What the properties observe *)

(** Twenty years of 365 days, in the seconds of [time()]. *)
Definition twenty_years : Z := 20 * (365 * 86400).

(** The cookies of a jar whose name starts with rsso. *)
Definition rsso_cookies (jar : Jar) : Jar :=
  List.filter (fun c => is_rsso (cookie_name c)) jar.

(** The jar that one [update_cookie] leaves. *)
Definition jar_after_update (cookie : Cookie) (jar : Jar) : Jar :=
  jar_set cookie
    (remove_cookie_by_name (cookie_name cookie)
       (if is_rsso (cookie_name cookie) then drop_old_rsso jar jar else jar)).

Definition is_host_request (ev : Event) : bool :=
  match ev with Request Host _ _ _ => true | _ => false end.

Definition is_store (ev : Event) : bool :=
  match ev with StoreCredentials _ _ => true | _ => false end.

(** How often [HttpClient.request] has been called. *)
Definition host_requests (w : World) : nat :=
  length (List.filter is_host_request (trace w)).

(** How often the store-credentials callback has been invoked. *)
Definition stores (w : World) : nat :=
  length (List.filter is_store (trace w)).

(** The four entries [get_credentials] writes. *)
Definition credentials_of (c : Client) (d : gmap string CredVal) : gmap string CredVal :=
  <["fingerprint" := CStr (_fingerprint c)]>
    (<["refresh_token" := CPickledToken (refresh_token c)]>
       (<["current_auth_token" := CStr (_current_auth_token c)]>
          (<["session_object" := CPickledSession (_current_session c)]> d))).


(** What the auth-lost slot holds. *)
Definition pending (w : World) : option AuthLost := _auth_lost_callback (client w).

(** [m] leaves the observation [obs] of the world as it was, whether it
    returns or raises. *)
Definition preserves {A X} (obs : World -> X) (m : M A) : Prop :=
  forall w, obs (m w).2 = obs w.

(** [Q] holds of the outcome of [m] run in [w]. *)
Definition wpe {A} (m : M A) (Q : Result A -> World -> Prop) (w : World) : Prop :=
  Q (m w).1 (m w).2.

(** One for a call that returned, nothing for one that raised. *)
Definition succeeded {A} (r : Result A) : nat :=
  match r with Ok _ => 1%nat | Raise _ => 0%nat end.

(** The session's jar once the cookies of a response are in. *)
Definition merged_cookies (r : Reply) (jar : Jar) : Jar :=
  fold_left (fun jar c => set_cookie c jar) (reply_cookies r) jar.

(** A profile fetch started in [w] gets as far as reading the auth-token
    cookie again after the response, and finds another value than before
    the request. *)
Definition rotation_observed (w : World) : bool :=
  match _current_session (client w), _current_auth_token (client w) with
  | Some s, Some _ =>
      match jar_getitem "ScAuthTokenData" (cookies s), reply_exn (provider w (calls w)) with
      | Ok old_auth, None =>
          match jar_getitem "ScAuthTokenData"
                  (merged_cookies (provider w (calls w)) (cookies s)) with
          | Ok new_auth => negb (String.eqb new_auth old_auth)
          | Raise _ => false
          end
      | _, _ => false
      end
  | _, _ => false
  end.

(** A user identity is set. *)
Definition user_known (w : World) : bool :=
  match user (client w) with Some _ => true | None => false end.

(** The world once [do_request] has caught the failure [e]: the warning is
    logged and the slot holds [True]. *)
Definition lost_auth (e : Exn) (w : World) : World :=
  with_client (with_auth_lost (Some FlagTrue) (client w))
              (with_event (Log Warning (retry_warning e)) w).

(** The entries of [games_played] whose platform is the string PC. *)
Definition platform_is_pc (game : Json) : bool :=
  match json_getitem game "platform" with
  | Ok platform => json_eqb_str platform "PC"
  | Raise _ => false
  end.

Definition pc_entries (games : list Json) : list Json := List.filter platform_is_pc games.

Definition id_of (game id : Json) : Prop := json_getitem game "id" = Ok id.

(** An entry as the provider documents it: it has a platform and an id. *)
Definition well_formed_game (game : Json) : Prop :=
  (exists platform, json_getitem game "platform" = Ok platform)
  /\ (exists id, json_getitem game "id" = Ok id).

(** ** Concrete sessions and provider scripts *)

Definition site_cookie (name value : string) : Cookie :=
  mkCookie name value "www.rockstargames.com" "/".

Definition profile_document : Json :=
  JObj [("user",
         JObj [("auth_token",
                JObj [("access_token", JStr "bearer-1"); ("refresh_token", JStr "refresh-1")]);
               ("games_played",
                JArr [JObj [("id", JStr "A"); ("platform", JStr "PC")];
                      JObj [("id", JStr "B"); ("platform", JStr "PS4")];
                      JObj [("id", JStr "C"); ("platform", JStr "PC")]])])].

Definition basic_profile_document : Json :=
  JObj [("accounts",
         JArr [JObj [("rockstarAccount",
                      JObj [("displayName", JStr "Niko"); ("rockstarId", JNum 7)])]])].

Definition answer (doc : Json) : Reply := mkReply None [] EmptyString (Some doc).

Definition failure (code : nat) : Reply :=
  mkReply (Some (ProviderError code)) [] EmptyString None.

Definition code_answer : Reply := mkReply None [] "code-1" None.

Definition login_answer (token : string) : Reply :=
  mkReply None [site_cookie "ScAuthTokenData" token] EmptyString (Some (JObj [])).

(** A manager set up the way the host does after a restart: a new
    session, the stored cookies put back one by one, the stored auth token
    and the refresh token. *)
Definition signed_in (script : nat -> Reply) : World :=
  ((create_session None ;;
    update_cookie (site_cookie "ScAuthTokenData" "0123456789abcdef") ;;
    update_cookie (site_cookie "rsso_a1" "session-1") ;;
    update_cookie (site_cookie "TS019978c2" "ts-1") ;;
    set_current_auth_token (Some "0123456789abcdef") ;;
    set_refresh_token "rmt-1") (fresh_world script 1600000000)).2.

(** Profile document and basic profile in turn: the provider never fails
    and never rotates the auth token. *)
Definition steady_script (n : nat) : Reply :=
  if Nat.even n then answer profile_document else answer basic_profile_document.

(** The request fails, and so does the first step of the refresh. *)
Definition refresh_fails_script (n : nat) : Reply :=
  match n with
  | 0%nat => failure 0
  | 1%nat => failure 1
  | _ => answer profile_document
  end.

(** A sign-in, then a refresh that succeeds, then a failing profile
    fetch. *)
Definition fetch_fails_script (n : nat) : Reply :=
  match n with
  | 0%nat => answer profile_document
  | 1%nat => answer basic_profile_document
  | 2%nat => code_answer
  | 3%nat => login_answer "fedcba9876543210"
  | _ => failure n
  end.

Definition refresh_script (n : nat) : Reply :=
  match n with
  | 0%nat => code_answer
  | _ => login_answer "fedcba9876543210"
  end.

Definition games_url : string := "https://scapi.rockstargames.com/games".

(** The bearer fetch, the request, and the four calls of [authenticate],
    round after round; the request fails in the first two rounds. *)
Definition failing_twice_script (n : nat) : Reply :=
  match (n mod 6)%nat with
  | 0%nat => answer profile_document
  | 1%nat => if (n <? 12)%nat then failure n else answer (JObj [])
  | 2%nat => code_answer
  | 3%nat => login_answer "fedcba9876543210"
  | 4%nat => answer profile_document
  | _ => answer basic_profile_document
  end.

Definition is_request_to (url : string) (ev : Event) : bool :=
  match ev with
  | Request Plain _ u _ => String.eqb u url
  | _ => false
  end.

(** How often a throw-away session has requested [url]. *)
Definition attempts (url : string) (w : World) : nat :=
  length (List.filter (is_request_to url) (trace w)).

(** The texts written to the log. *)
Definition logged (w : World) : list (list LogPart) :=
  flat_map (fun ev => match ev with Log _ message => [message] | _ => [] end) (trace w).

(** ** Further operations of the client *)

(** [d[key]] for the dictionary behind [ref]. *)
Definition dict_getitem (ref : nat) (key : string) : M CredVal :=
  fun w => match default ∅ (heap w !! ref) !! key with
           | Some v => (Ok v, w)
           | None => (Raise (KeyError key), w)
           end.

Definition get_rockstar_id : M CredVal :=
  c <- get_client ;;
  match user c with
  | Some ref => dict_getitem ref "rockstar_id"
  | None => raise TypeError        (* subscript of [None] *)
  end.

(** [d[k] = v] for a Python dictionary kept in insertion order. *)
Fixpoint assoc_set (k v : string) (d : list (string * string)) : list (string * string) :=
  match d with
  | [] => [(k, v)]
  | (k', v') :: rest =>
      if String.eqb k' k then (k, v) :: rest else (k', v') :: assoc_set k v rest
  end.

Fixpoint assoc_get (k : string) (d : list (string * string)) : option string :=
  match d with
  | [] => None
  | (k', v) :: rest => if String.eqb k' k then Some v else assoc_get k rest
  end.

(** [jar.get_dict()] of the [requests] jar: name to value, a later cookie
    of the same name overwriting an earlier one. *)
Definition get_dict (jar : Jar) : list (string * string) :=
  fold_left (fun d c => assoc_set (cookie_name c) (cookie_value c) d) jar [].

Definition get_cookies_for_headers : M string :=
  s <- session ;;
  let cookie_string :=
    fold_left (fun acc kv => acc ++ fst kv ++ "=" ++ snd kv ++ ";")
              (get_dict (cookies s)) EmptyString in
  ret (substring 0 (String.length cookie_string - 1) cookie_string).

(** [get_bearer_from_cookie_jar].  The [aiohttp] jar is no part of the
    client record; [morsels] is what iterating it yields, key and value. *)
Definition get_bearer_from_cookie_jar (morsels : list (string * string)) : M string :=
  let cookies := fold_left (fun d m => assoc_set (fst m) (snd m) d) morsels [] in
  log Debug [Str (JObj (map (fun kv => (fst kv, JStr (snd kv))) cookies))] ;;
  match assoc_get "BearerToken" cookies with
  | Some v => ret v
  | None => raise (KeyError "BearerToken")
  end.

(** ** What the further properties observe *)

(** The cookies an [update_cookie] of [cookie] leaves in place: those of
    another name, and when [cookie] has an rsso name, only those without
    one. *)
Definition survives_update (cookie old : Cookie) : bool :=
  negb (String.eqb (cookie_name old) (cookie_name cookie))
  && negb (is_rsso (cookie_name cookie) && is_rsso (cookie_name old)).

(** The value of the last morsel with key [k]. *)
Fixpoint last_value (k : string) (morsels : list (string * string)) : option string :=
  match morsels with
  | [] => None
  | (k', v) :: rest =>
      match last_value k rest with
      | Some v' => Some v'
      | None => if String.eqb k' k then Some v else None
      end
  end.

(** One name=value pair of a cookie header. *)
Definition pair_text (kv : string * string) : string := fst kv ++ "=" ++ snd kv.

(** The dictionary [authenticate] makes for [self.user]. *)
Definition user_dict (display_name rockstar_id : Json) : gmap string CredVal :=
  <["display_name" := CJson display_name]> (<["rockstar_id" := CJson rockstar_id]> ∅).

(** [doc] carries the basic profile [name], [id] where the provider puts
    it: accounts, first item, rockstarAccount. *)
Definition basic_profile_of (doc : Json) (name : string) (id : Json) : Prop :=
  exists accounts account working_dict,
    json_getitem doc "accounts" = Ok accounts
    /\ json_first accounts = Ok account
    /\ json_getitem account "rockstarAccount" = Ok working_dict
    /\ json_getitem working_dict "displayName" = Ok (JStr name)
    /\ json_getitem working_dict "rockstarId" = Ok id.

(** A sign-in, then a request that fails once between a bearer fetch and
    a full re-authentication, and then succeeds. *)
Definition retry_once_script (n : nat) : Reply :=
  match n with
  | 0%nat => answer profile_document
  | 1%nat => answer basic_profile_document
  | 2%nat => answer profile_document
  | 3%nat => failure 3
  | 4%nat => code_answer
  | 5%nat => login_answer "fedcba9876543210"
  | 6%nat => answer profile_document
  | 7%nat => answer basic_profile_document
  | 8%nat => answer profile_document
  | _ => answer (JObj [])
  end.

(** The host's request fails once and succeeds after the
    re-authentication. *)
Definition recover_script (n : nat) : Reply :=
  match n with
  | 0%nat => failure 0
  | 1%nat => code_answer
  | 2%nat => login_answer "fedcba9876543210"
  | 3%nat => answer profile_document
  | 4%nat => answer basic_profile_document
  | _ => answer (JObj [])
  end.

(** * Properties *)

(** ** Token expiry *)

Lemma expired_with_expiry (t : Token) (e now : Z) :
  _expires t = Some e -> expired t now = Ok (e <=? now).
Proof. intros H. unfold expired. rewrite H. reflexivity. Qed.

Lemma expired_true_iff (t : Token) (e now : Z) :
  _expires t = Some e -> (expired t now = Ok true <-> e <= now).
Proof.
  intros H. rewrite (expired_with_expiry t e now H). split.
  - intros Heq. injection Heq as Hle. apply Z.leb_le. exact Hle.
  - intros Hle. f_equal. apply Z.leb_le. exact Hle.
Qed.

(** C4. [Token.expired] is not false when the expiry is [None]: on a
    token that was never set the comparison raises [TypeError], and so does
    reading the refresh token of a manager just constructed. *)
Theorem expired_raises_without_expiry (script : nat -> Reply) (now : Z) :
  expired Token_new now = Raise TypeError
  /\ (get_refresh_token (fresh_world script now)).1 = Raise TypeError.
Proof. split; reflexivity. Qed.

(** ** The refresh token *)

(** C5. Setting the refresh token at clock reading [clock w] stores the
    expiry [clock w + twenty_years]; a later read at or past that instant
    returns [None] and leaves token and expiry cleared, without raising; a
    read before it returns the token and changes nothing. *)
Theorem refresh_token_lifetime (w : World) (token : string) (later : Z) :
  let w1 := (set_refresh_token token w).2 in
  let read := get_refresh_token (with_clock later w1) in
  (set_refresh_token token w).1 = Ok tt
  /\ refresh_token (client w1) = mkToken (Some token) (Some (clock w + twenty_years))
  /\ (if clock w + twenty_years <=? later
      then read.1 = Ok None /\ refresh_token (client read.2) = mkToken None None
      else read = (Ok (Some token), with_clock later w1)).
Proof.
  cbv zeta. split; [reflexivity | split; [reflexivity |]].
  unfold get_refresh_token, set_refresh_token, bind, get_client, time, lift,
    modify_client, expired. cbn.
  change (3600 * 24 * 365 * 20) with twenty_years.
  destruct (clock w + twenty_years <=? later); cbn; auto.
Qed.

(** ** Cookie updates *)

Lemma filter_none {A} (f : A -> bool) (l : list A) :
  (forall x, In x l -> f x = false) -> List.filter f l = [].
Proof.
  induction l as [|a l IH]; intros H; [reflexivity |].
  cbn. rewrite (H a (or_introl eq_refl)). apply IH.
  intros x Hx. apply H. right. exact Hx.
Qed.

Lemma filter_none_inv {A} (f : A -> bool) (l : list A) (x : A) :
  List.filter f l = [] -> In x l -> f x = false.
Proof.
  intros Hnil Hin. destruct (f x) eqn:Hfx; [| reflexivity].
  assert (Hx : In x (List.filter f l)) by (apply filter_In; split; assumption).
  rewrite Hnil in Hx. destruct Hx.
Qed.

Lemma remove_cookie_by_name_In (n : string) (jar : Jar) (c : Cookie) :
  In c (remove_cookie_by_name n jar) <-> In c jar /\ cookie_name c <> n.
Proof.
  unfold remove_cookie_by_name. rewrite filter_In.
  rewrite negb_true_iff, String.eqb_neq. reflexivity.
Qed.

Lemma drop_old_rsso_incl (visit : list Cookie) :
  forall (jar : Jar) (c : Cookie), In c (drop_old_rsso visit jar) -> In c jar.
Proof.
  induction visit as [|old rest IH]; intros jar c Hin; [exact Hin |].
  cbn in Hin. apply IH in Hin.
  destruct (is_rsso (cookie_name old)); [| exact Hin].
  apply remove_cookie_by_name_In in Hin. apply Hin.
Qed.

Lemma drop_old_rsso_gone (visit : list Cookie) :
  forall (jar : Jar) (v c : Cookie),
    In v visit -> is_rsso (cookie_name v) = true ->
    In c (drop_old_rsso visit jar) -> cookie_name c <> cookie_name v.
Proof.
  induction visit as [|old rest IH]; intros jar v c Hv Hr Hin; [destruct Hv |].
  cbn in Hin. destruct Hv as [-> | Hv].
  - rewrite Hr in Hin. apply drop_old_rsso_incl in Hin.
    apply remove_cookie_by_name_In in Hin. apply Hin.
  - eapply IH; eassumption.
Qed.

Lemma rsso_cookies_drop (jar : Jar) : rsso_cookies (drop_old_rsso jar jar) = [].
Proof.
  apply filter_none. intros c Hin.
  destruct (is_rsso (cookie_name c)) eqn:Hr; [| reflexivity].
  exfalso. eapply (drop_old_rsso_gone jar jar c c); eauto.
  eapply drop_old_rsso_incl; eassumption.
Qed.

Lemma rsso_cookies_remove (n : string) (jar : Jar) :
  rsso_cookies jar = [] -> rsso_cookies (remove_cookie_by_name n jar) = [].
Proof.
  intros H. apply filter_none. intros c Hin.
  apply remove_cookie_by_name_In in Hin.
  apply (filter_none_inv (fun c => is_rsso (cookie_name c)) jar c H), Hin.
Qed.

Lemma same_slot_name (a b : Cookie) : same_slot a b = true -> cookie_name a = cookie_name b.
Proof.
  unfold same_slot. rewrite !andb_true_iff. intros [[H _] _].
  apply String.eqb_eq. exact H.
Qed.

Lemma rsso_cookies_set (c : Cookie) (jar : Jar) :
  is_rsso (cookie_name c) = true -> rsso_cookies jar = [] ->
  rsso_cookies (set_cookie c jar) = [c].
Proof.
  intros Hc. induction jar as [|old rest IH]; intros Hnil.
  - cbn. rewrite Hc. reflexivity.
  - assert (Hold : is_rsso (cookie_name old) = false).
    { apply (filter_none_inv (fun c => is_rsso (cookie_name c)) (old :: rest) old Hnil).
      left. reflexivity. }
    cbn in Hnil. rewrite Hold in Hnil. cbn.
    destruct (same_slot old c) eqn:Hs.
    + apply same_slot_name in Hs. rewrite Hs in Hold. congruence.
    + cbn. rewrite Hold. apply IH. exact Hnil.
Qed.

Lemma create_cookie_name (c : Cookie) : cookie_name (create_cookie c) = cookie_name c.
Proof. unfold create_cookie. destruct (quoted (cookie_value c)); reflexivity. Qed.

Lemma rsso_cookies_after_update (cookie : Cookie) (jar : Jar) :
  is_rsso (cookie_name cookie) = true ->
  rsso_cookies (jar_after_update cookie jar) = [create_cookie cookie].
Proof.
  intros Hc. unfold jar_after_update, jar_set. rewrite Hc.
  apply rsso_cookies_set.
  - rewrite create_cookie_name. exact Hc.
  - apply rsso_cookies_remove, rsso_cookies_drop.
Qed.

Lemma update_cookie_run (cookie : Cookie) (w : World) (s : Session) :
  _current_session (client w) = Some s ->
  update_cookie cookie w =
    (Ok tt, with_client (with_session (Some (with_cookies (jar_after_update cookie (cookies s)) s))
                                      (client w)) w).
Proof.
  intros Hs. destruct w as [c h n t p k tr]. destruct c. cbn in Hs. subst.
  unfold update_cookie, jar_after_update.
  destruct (is_rsso (cookie_name cookie)); reflexivity.
Qed.

Lemma update_cookie_without_session (cookie : Cookie) (w : World) :
  _current_session (client w) = None ->
  (update_cookie cookie w).1 = Raise AttributeError.
Proof.
  intros Hs. destruct w as [c h n t p k tr]. destruct c. cbn in Hs. subst.
  unfold update_cookie.
  destruct (is_rsso (cookie_name cookie)); reflexivity.
Qed.

(** C6. When the manager has a session, two cookies with rsso names added
    one after the other by [update_cookie] leave one rsso cookie in the
    session's jar, whatever the jar held before: the second one, as the jar
    stores it. *)
Theorem update_cookie_keeps_latest_rsso (w : World) (s : Session) (first second : Cookie) :
  _current_session (client w) = Some s ->
  is_rsso (cookie_name first) = true ->
  is_rsso (cookie_name second) = true ->
  let after := (update_cookie first ;; update_cookie second) w in
  after.1 = Ok tt
  /\ exists s', _current_session (client after.2) = Some s'
                /\ rsso_cookies (cookies s') = [create_cookie second].
Proof.
  intros Hs H1 H2. cbv zeta. unfold bind.
  rewrite (update_cookie_run first w s Hs).
  erewrite update_cookie_run by reflexivity.
  split; [reflexivity |]. eexists. split; [reflexivity |].
  cbn. apply rsso_cookies_after_update. exact H2.
Qed.

(** ** Frames and outcomes *)

Section Frame.
Context {X : Type} (obs : World -> X).

Lemma preserves_ret {A} (a : A) : preserves obs (ret a).
Proof. intros w. reflexivity. Qed.

Lemma preserves_raise {A} (e : Exn) : preserves obs (@raise A e).
Proof. intros w. reflexivity. Qed.

Lemma preserves_lift {A} (r : Result A) : preserves obs (lift r).
Proof. intros w. reflexivity. Qed.

Lemma preserves_get_client : preserves obs get_client.
Proof. intros w. reflexivity. Qed.

Lemma preserves_time : preserves obs time.
Proof. intros w. reflexivity. Qed.

Lemma preserves_bind {A B} (m : M A) (k : A -> M B) :
  preserves obs m -> (forall a, preserves obs (k a)) -> preserves obs (bind m k).
Proof.
  intros Hm Hk w. unfold bind. specialize (Hm w).
  destruct (m w) as [[a | e] w']; cbn in *; [| exact Hm].
  rewrite Hk. exact Hm.
Qed.

Lemma preserves_try_except {A} (m : M A) (h : Exn -> M A) :
  preserves obs m -> (forall e, preserves obs (h e)) -> preserves obs (try_except m h).
Proof.
  intros Hm Hh w. unfold try_except. specialize (Hm w).
  destruct (m w) as [[a | e] w']; cbn in *; [exact Hm |].
  rewrite Hh. exact Hm.
Qed.
End Frame.

(** Splits a computation along its binds, handlers and case distinctions
    down to the primitive steps, which are settled by evaluation. *)
Ltac frame_leaf :=
  let w := fresh "w" in
  intros w;
  unfold modify_client, emit, log, print_exc, network, dict_setitem, new_dict,
    _store_credentials;
  cbn;
  repeat match goal with
         | |- context [match ?x with _ => _ end] => destruct x; cbn
         end;
  reflexivity.

Ltac frame :=
  repeat first
    [ apply preserves_ret
    | apply preserves_raise
    | apply preserves_lift
    | apply preserves_get_client
    | apply preserves_time
    | assumption
    | apply preserves_bind; [| intros ?]
    | apply preserves_try_except; [| intros ?]
    | match goal with
      | |- preserves _ (match ?x with _ => _ end) => destruct x
      end
    | progress unfold session, set_jar, session_send, resp_json, get_credentials,
        set_refresh_token, get_refresh_token, set_auth_lost_callback, request,
        refresh_if_needed
    | solve [frame_leaf] ].

Lemma refresh_credentials_host_requests : preserves host_requests refresh_credentials.
Proof. unfold refresh_credentials. frame. Qed.

Lemma get_user_json_host_requests (message : option string) :
  preserves host_requests (_get_user_json message).
Proof. unfold _get_user_json. frame. Qed.

Lemma get_bearer_host_requests : preserves host_requests _get_bearer.
Proof. unfold _get_bearer. pose proof get_user_json_host_requests. frame. Qed.


Lemma wpe_bind {A B} (m : M A) (k : A -> M B) (Q : Result B -> World -> Prop) (w : World) :
  wpe m (fun r w' => match r with
                     | Ok a => wpe (k a) Q w'
                     | Raise e => Q (Raise e) w'
                     end) w ->
  wpe (bind m k) Q w.
Proof. unfold wpe, bind. destruct (m w) as [[a | e] w']; cbn; auto. Qed.

Lemma wpe_frame {A X} (obs : World -> X) (m : M A) (Q : Result A -> World -> Prop) (w : World) :
  preserves obs m -> (forall r w', obs w' = obs w -> Q r w') -> wpe m Q w.
Proof. intros Hm HQ. apply HQ. apply Hm. Qed.

Lemma preserves_after {A B X} (obs : World -> X) (m : M A) (k : A -> M B) (h : Exn -> M B) :
  (forall a, preserves obs (k a)) -> (forall e, preserves obs (h e)) ->
  forall w, obs (try_except (bind m k) h w).2 = obs (m w).2.
Proof.
  intros Hk Hh w. unfold try_except, bind.
  destruct (m w) as [[a | e] w1]; cbn; [| apply Hh].
  specialize (Hk a w1). destruct (k a w1) as [[b | e] w2]; cbn in *; [exact Hk |].
  rewrite Hh. exact Hk.
Qed.

(** One framed step of a computation, with what it preserved carried to
    the next step; an exit by exception is closed from what was carried. *)
Ltac wpe_step obs :=
  apply wpe_bind; apply (wpe_frame obs);
  [ frame
  | intros [?|?] ? ?; [| cbn in *; repeat split; try discriminate; try congruence; try lia ] ].

(** *** The requests of the host *)

Lemma refresh_if_needed_host_requests : preserves host_requests refresh_if_needed.
Proof. pose proof refresh_credentials_host_requests. frame. Qed.

Lemma store_basic_profile_host_requests (b : Json) :
  preserves host_requests (store_basic_profile b).
Proof. unfold store_basic_profile. frame. Qed.

Lemma authenticate_host_requests : preserves host_requests authenticate.
Proof.
  unfold authenticate.
  pose proof get_bearer_host_requests. pose proof refresh_if_needed_host_requests.
  pose proof store_basic_profile_host_requests.
  frame.
Qed.

(** *** The auth-lost slot *)

Lemma refresh_credentials_pending : preserves pending refresh_credentials.
Proof. unfold refresh_credentials. frame. Qed.

Lemma get_bearer_pending : preserves pending _get_bearer.
Proof. unfold _get_bearer. frame. Qed.

Lemma store_basic_profile_pending (b : Json) : preserves pending (store_basic_profile b).
Proof. unfold store_basic_profile. frame. Qed.

Lemma refresh_if_needed_clears (w : World) :
  wpe refresh_if_needed (fun r w' => match r with
                                     | Ok _ => pending w' = None
                                     | Raise _ => pending w' = pending w
                                     end) w.
Proof.
  unfold refresh_if_needed. apply wpe_bind. unfold wpe at 1. cbn.
  destruct (truthy (_auth_lost_callback (client w)) || _debug_always_refresh (client w)) eqn:E.
  - apply wpe_bind. apply (wpe_frame pending); [apply refresh_credentials_pending |].
    intros [[] | e] w1 H1; [reflexivity | exact H1].
  - unfold wpe. cbn. apply orb_false_iff in E as [E _]. unfold pending.
    destruct (_auth_lost_callback (client w)); [discriminate | reflexivity].
Qed.

Lemma store_basic_profile_user (b : Json) (w : World) :
  wpe (store_basic_profile b) (fun r w' => match r with
                                           | Ok u => is_Some u /\ user (client w') = u
                                           | Raise _ => True
                                           end) w.
Proof.
  unfold store_basic_profile.
  do 9 wpe_step pending.
  unfold wpe. cbn. split; [eexists |]; reflexivity.
Qed.

Lemma authenticate_ok (w : World) :
  wpe authenticate (fun r w' => match r with
                                | Ok u => is_Some u /\ user (client w') = u /\ pending w' = None
                                | Raise _ => True
                                end) w.
Proof.
  unfold authenticate.
  apply wpe_bind. pose proof (refresh_if_needed_clears w) as H0. unfold wpe in H0 |- * at 1.
  destruct (refresh_if_needed w) as [[[] | e] w1]; cbn in *; [| exact I].
  apply wpe_bind. apply (wpe_frame pending); [apply get_bearer_pending |].
  intros [b | e] w2 H2; [| exact I].
  apply wpe_bind. unfold wpe at 1. cbn.
  pose proof (store_basic_profile_user b (with_client (with_bearer (Some b) (client w2)) w2)) as Hu.
  pose proof (store_basic_profile_pending b (with_client (with_bearer (Some b) (client w2)) w2)) as Hp.
  unfold wpe in *.
  destruct (store_basic_profile b _) as [[u | e] w3]; cbn in *; [| exact I].
  destruct Hu as [Hu1 Hu2]. split; [exact Hu1 |]. split; [exact Hu2 |].
  unfold pending in *. cbn in *. congruence.
Qed.

#[local] Arguments jar_getitem : simpl never.

Ltac count_done :=
  repeat match goal with
         | |- context [match ?x with _ => _ end] => is_var x; destruct x; cbn
         end;
  repeat match goal with
         | |- context [match ?x with _ => _ end] =>
             lazymatch x with
             | context [match _ with _ => _ end] => fail
             | _ => destruct x; cbn
             end
         end;
  first [lia | match goal with |- ?g => idtac g end; fail].

Lemma get_user_json_stores (message : option string) (w : World) :
  stores (_get_user_json message w).2
  = (stores w + (if rotation_observed w && user_known w then 1 else 0))%nat.
Proof.
  destruct w as [c h n t p k tr]. destruct c as [dbg b r rt fp u s al tok fa].
  unfold _get_user_json, rotation_observed, user_known, merged_cookies, stores,
    session_send, get_credentials, session, set_jar, resp_json, log, print_exc,
    network, dict_setitem, _store_credentials, modify_client, emit, get_client,
    lift, raise, ret, try_except, bind.
  destruct message; cbn.
  all: destruct s as [s|]; cbn; [| count_done].
  all: destruct (jar_getitem "ScAuthTokenData" (cookies s)) as [old|e]; cbn; [| count_done].
  all: destruct tok as [tok|]; cbn; [| count_done].
  all: destruct (reply_exn (p k)); cbn; [count_done |].
  all: destruct (jar_getitem "ScAuthTokenData" _) as [new|e]; cbn; [| count_done].
  all: destruct (negb (String.eqb new old)); cbn; count_done.
Qed.

(** *** The store-credentials callback *)

Lemma get_bearer_stores (w : World) :
  stores (_get_bearer w).2 = stores (_get_user_json None w).2.
Proof. unfold _get_bearer. apply preserves_after; intros; frame. Qed.

Lemma get_played_games_stores (w : World) :
  stores (get_played_games w).2 = stores (_get_user_json None w).2.
Proof. unfold get_played_games. apply preserves_after; intros; frame. Qed.

Lemma refresh_credentials_stores : preserves stores refresh_credentials.
Proof. unfold refresh_credentials. frame. Qed.

Lemma refresh_if_needed_stores : preserves stores refresh_if_needed.
Proof. pose proof refresh_credentials_stores. frame. Qed.

Lemma store_basic_profile_stores (b : Json) (w : World) :
  wpe (store_basic_profile b) (fun r w' => stores w' = (stores w + succeeded r)%nat) w.
Proof.
  unfold store_basic_profile.
  do 9 wpe_step stores.
  unfold wpe. cbn in *. unfold stores in *. cbn. lia.
Qed.

Lemma authenticate_stores (w : World) :
  stores (authenticate w).2
  = (stores w
     + match refresh_if_needed w with
       | (Ok _, w1) => if rotation_observed w1 && user_known w1 then 1 else 0
       | (Raise _, _) => 0
       end
     + succeeded (authenticate w).1)%nat.
Proof.
  unfold authenticate, bind.
  pose proof (refresh_if_needed_stores w) as H0.
  destruct (refresh_if_needed w) as [[[] | e] w1]; cbn in *; [| lia].
  pose proof (get_bearer_stores w1) as H1. rewrite get_user_json_stores in H1.
  destruct (_get_bearer w1) as [[b | e] w2]; cbn in *; [| lia].
  pose proof (store_basic_profile_stores b (with_client (with_bearer (Some b) (client w2)) w2)) as H2.
  unfold wpe in H2.
  destruct (store_basic_profile b _) as [r w3]; cbn in *.
  unfold stores in *. cbn in *. lia.
Qed.

(** *** [do_request] *)

Lemma request_host_requests (method url : string) (w : World) :
  host_requests (request method url w).2 = S (host_requests w).
Proof.
  unfold request, network, host_requests. destruct (reply_exn _); reflexivity.
Qed.

Lemma do_request_run (method url : string) (w : World) :
  match request method url w with
  | (Ok resp, w1) => do_request method url w = (Ok resp, w1)
  | (Raise e1, w1) =>
      match authenticate (lost_auth e1 w1) with
      | (Ok _, w3) => do_request method url w = request method url w3
      | (Raise e, w3) => do_request method url w = (Raise e, w3)
      end
  end.
Proof.
  unfold do_request, try_except.
  destruct (request method url w) as [[resp | e1] w1]; [reflexivity |].
  unfold bind at 1. cbn. unfold bind at 1. cbn.
  change (with_client _ _) with (lost_auth e1 w1).
  unfold bind.
  destruct (authenticate (lost_auth e1 w1)) as [[u | e] w3]; reflexivity.
Qed.

(** C1. As stated the claim fails when [authenticate] itself raises: the
    request is then made once only and the caller gets the failure of
    [authenticate]. *)
Lemma do_request_no_retry_when_authenticate_fails :
  let w := signed_in refresh_fails_script in
  (request "GET" games_url w).1 = Raise (ProviderError 0)
  /\ (do_request "GET" games_url w).1 = Raise (ProviderError 1)
  /\ host_requests (do_request "GET" games_url w).2 = 1%nat.
Proof. vm_compute. repeat split. Qed.

(** C1, amended. A request that succeeds is returned as it is.  After a
    first failure the slot holds [True] and [authenticate] runs; if it
    returns, the request is made once more and whatever that second attempt
    gives, failure included, is the result, two attempts in all; if
    [authenticate] raises, that failure is the result and the request was
    made once. *)
Theorem do_request_retries_once (method url : string) (w : World) :
  match request method url w with
  | (Ok resp, w1) => do_request method url w = (Ok resp, w1)
  | (Raise e1, w1) =>
      pending (lost_auth e1 w1) = Some FlagTrue
      /\ match authenticate (lost_auth e1 w1) with
         | (Ok _, w3) =>
             do_request method url w = request method url w3
             /\ (forall e2 w4, request method url w3 = (Raise e2, w4) ->
                               do_request method url w = (Raise e2, w4))
             /\ host_requests (do_request method url w).2 = (host_requests w + 2)%nat
         | (Raise e, w3) =>
             do_request method url w = (Raise e, w3)
             /\ host_requests w3 = (host_requests w + 1)%nat
         end
  end.
Proof.
  pose proof (do_request_run method url w) as Hrun.
  pose proof (request_host_requests method url w) as Hfirst.
  destruct (request method url w) as [[resp | e1] w1]; [exact Hrun |].
  split; [reflexivity |].
  pose proof (authenticate_host_requests (lost_auth e1 w1)) as Hauth.
  destruct (authenticate (lost_auth e1 w1)) as [[u | e] w3].
  - split; [exact Hrun |]. split; [intros e2 w4 H2; congruence |].
    rewrite Hrun, request_host_requests.
    unfold host_requests in *. cbn in *. lia.
  - split; [exact Hrun |].
    unfold host_requests in *. cbn in *. lia.
Qed.

(** After a failed request and a re-authentication that returns,
    [get_json_from_request_strict] starts over from its first line, bearer
    fetch and retry logic included: nothing records that a retry has
    already been made. *)
Lemma get_json_from_request_strict_starts_over
    (fuel : nat) (url : string) (w w1 w2 w3 : World) (b : Json) (e : Exn)
    (u : option nat) :
  _get_bearer w = (Ok b, w1) ->
  (resp <- network Plain "GET" url [Text "Bearer "; Str b] ;; resp_json resp) w1
  = (Raise e, w2) ->
  authenticate (lost_auth e w2) = (Ok u, w3) ->
  get_json_from_request_strict (S fuel) url true [] w
  = get_json_from_request_strict fuel url true [] w3.
Proof.
  intros Hb Hget Hauth.
  change (get_json_from_request_strict (S fuel) url true [] w)
    with (match (b <- _get_bearer ;; ret ([] ++ [Text "Bearer "; Str b])%list) w with
          | (Raise e, w1) => Some (Raise e, w1)
          | (Ok headers, w1) =>
              match (resp <- network Plain "GET" url headers ;; resp_json resp) w1 with
              | (Ok j, w2) => Some (Ok j, w2)
              | (Raise e, w2) =>
                  match (log Warning (retry_warning e) ;;
                         set_auth_lost_callback (Some FlagTrue) ;;
                         authenticate) w2 with
                  | (Raise e', w3) => Some (Raise e', w3)
                  | (Ok _, w3) => get_json_from_request_strict fuel url true [] w3
                  end
              end
          end).
  unfold bind at 1. rewrite Hb. cbn [ret app]. rewrite Hget.
  change ((log Warning (retry_warning e) ;;
           set_auth_lost_callback (Some FlagTrue) ;; authenticate) w2)
    with (authenticate (lost_auth e w2)).
  rewrite Hauth. reflexivity.
Qed.

(** C2. [get_json_from_request_strict] is not held to two attempts: with
    a provider that fails the request twice and lets every
    re-authentication through, it asks a third time. *)
Theorem get_json_from_request_strict_third_attempt :
  exists w',
    get_json_from_request_strict 3 games_url true [] (signed_in failing_twice_script)
    = Some (Ok (JObj []), w')
    /\ attempts games_url w' = 3%nat.
Proof. eexists. split; vm_compute; reflexivity. Qed.

(** C3. As stated the claim fails for a second successful [authenticate]
    with no rotation in sight: the callback is invoked again. *)
Lemma store_credentials_on_second_authenticate :
  let w1 := (authenticate (signed_in steady_script)).2 in
  let w2 := (authenticate w1).2 in
  (authenticate (signed_in steady_script)).1 = Ok (Some 0%nat)
  /\ stores w1 = 1%nat
  /\ (authenticate w1).1 = Ok (Some 1%nat)
  /\ rotation_observed w1 = false
  /\ stores w2 = 2%nat.
Proof. vm_compute. repeat split. Qed.

Lemma do_request_stores (method url : string) (w : World) :
  stores (do_request method url w).2
  = match request method url w with
    | (Ok _, _) => stores w
    | (Raise e, w1) => stores (authenticate (lost_auth e w1)).2
    end.
Proof.
  pose proof (do_request_run method url w) as Hrun.
  assert (Hreq : forall w0, stores (request method url w0).2 = stores w0).
  { intros w0. unfold request, network, stores. destruct (reply_exn _); reflexivity. }
  pose proof (Hreq w) as H1.
  destruct (request method url w) as [[resp | e1] w1]; cbn in *.
  - rewrite Hrun. exact H1.
  - destruct (authenticate (lost_auth e1 w1)) as [[u | e] w3]; rewrite Hrun; cbn; auto.
Qed.

(** C3, amended. The callback is invoked once by every profile fetch that
    sees the auth-token cookie change while a user is set, once more at the
    end of every successful [authenticate], the first or a later one, and
    nowhere else: the bearer fetch and the played-games fetch add nothing to
    their profile fetch, [do_request] nothing to its [authenticate], and the
    refresh, the host's request and the cookie and token operations never
    invoke it. *)
Theorem store_credentials_occasions (w : World) :
  (forall message,
      stores (_get_user_json message w).2
      = (stores w + (if rotation_observed w && user_known w then 1 else 0))%nat)
  /\ stores (authenticate w).2
     = (stores w
        + match refresh_if_needed w with
          | (Ok _, w1) => if rotation_observed w1 && user_known w1 then 1 else 0
          | (Raise _, _) => 0
          end
        + succeeded (authenticate w).1)%nat
  /\ stores (_get_bearer w).2 = stores (_get_user_json None w).2
  /\ stores (get_played_games w).2 = stores (_get_user_json None w).2
  /\ (forall method url,
         stores (do_request method url w).2
         = match request method url w with
           | (Ok _, _) => stores w
           | (Raise e, w1) => stores (authenticate (lost_auth e w1)).2
           end)
  /\ stores (refresh_credentials w).2 = stores w
  /\ (forall method url, stores (request method url w).2 = stores w)
  /\ (forall cookie, stores (update_cookie cookie w).2 = stores w)
  /\ (forall token, stores (set_refresh_token token w).2 = stores w)
  /\ stores (get_refresh_token w).2 = stores w
  /\ stores (get_credentials w).2 = stores w
  /\ (forall stored, stores (create_session stored w).2 = stores w).
Proof.
  split; [intros message; apply get_user_json_stores |].
  split; [apply authenticate_stores |].
  split; [apply get_bearer_stores |].
  split; [apply get_played_games_stores |].
  split; [intros method url; apply do_request_stores |].
  split; [apply refresh_credentials_stores |].
  split; [intros method url; revert w; change (preserves stores (request method url)); frame |].
  split; [intros cookie; revert w; change (preserves stores (update_cookie cookie));
          unfold update_cookie; frame |].
  split; [intros token; revert w; change (preserves stores (set_refresh_token token)); frame |].
  split; [revert w; change (preserves stores get_refresh_token); frame |].
  split; [revert w; change (preserves stores get_credentials); frame |].
  intros stored; revert w; change (preserves stores (create_session stored)).
  unfold create_session. frame.
Qed.

(** C7. As stated the claim fails when the refresh step of an
    [authenticate] succeeds and a later step fails: the slot has been
    emptied, and [is_authenticated] is true again although no
    [authenticate] has succeeded since the flag was set. *)
Lemma is_authenticated_after_failed_authenticate :
  let w1 := (authenticate (signed_in fetch_fails_script)).2 in
  let w2 := (set_auth_lost_callback (Some FlagTrue) w1).2 in
  is_authenticated (client w1) = true
  /\ is_authenticated (client w2) = false
  /\ (authenticate w2).1 = Raise (ProviderError 4)
  /\ is_authenticated (client (authenticate w2).2) = true.
Proof. vm_compute. repeat split. Qed.

Lemma is_authenticated_iff (c : Client) :
  is_authenticated c = true <-> user c <> None /\ _auth_lost_callback c = None.
Proof.
  unfold is_authenticated.
  destruct (user c), (_auth_lost_callback c); intuition congruence.
Qed.

(** C7, amended. [is_authenticated] is true exactly when the user is set
    and the auth-lost slot is empty; it is false for a manager just
    constructed, true after every [authenticate] that returns, false once
    the slot is filled, and still false after an [authenticate] whose
    refresh step fails. *)
Theorem is_authenticated_meaning :
  (forall c, is_authenticated c = true <-> user c <> None /\ _auth_lost_callback c = None)
  /\ is_authenticated AuthenticatedHttpClient_init = false
  /\ (forall w u w', authenticate w = (Ok u, w') ->
                     is_Some u /\ user (client w') = u /\ is_authenticated (client w') = true)
  /\ (forall w slot, is_authenticated (client (set_auth_lost_callback (Some slot) w).2) = false)
  /\ (forall w e w', pending w <> None -> refresh_credentials w = (Raise e, w') ->
                     authenticate w = (Raise e, w') /\ is_authenticated (client w') = false).
Proof.
  split; [apply is_authenticated_iff |].
  split; [reflexivity |].
  split.
  { intros w u w' H. pose proof (authenticate_ok w) as Hok. unfold wpe in Hok.
    rewrite H in Hok. cbn in Hok. destruct Hok as (Hu & Huser & Hp).
    split; [exact Hu |]. split; [exact Huser |].
    apply is_authenticated_iff. unfold pending in Hp. rewrite Huser. split; [| exact Hp].
    destruct u; [discriminate | exfalso; exact (is_Some_None Hu)]. }
  split.
  { intros w slot. unfold is_authenticated. cbn. destruct (user (client w)); reflexivity. }
  intros w e w' Hp Hr.
  pose proof (refresh_credentials_pending w) as Hkeep. rewrite Hr in Hkeep. cbn in Hkeep.
  split.
  - unfold authenticate, refresh_if_needed, bind, get_client. unfold pending in Hp.
    destruct (_auth_lost_callback (client w)); [| congruence]. cbn. rewrite Hr. reflexivity.
  - unfold is_authenticated. unfold pending in *.
    destruct (user (client w')); [| reflexivity].
    destruct (_auth_lost_callback (client w')); [reflexivity |]. congruence.
Qed.

(** *** Diagnostics *)

Lemma wpe_try_except {A} (m : M A) (h : Exn -> M A) (Q : Result A -> World -> Prop) (w : World) :
  wpe m (fun r w' => match r with
                     | Ok a => Q (Ok a) w'
                     | Raise e => wpe (h e) Q w'
                     end) w ->
  wpe (try_except m h) Q w.
Proof. unfold wpe, try_except. destruct (m w) as [[a | e] w']; cbn; auto. Qed.

Ltac wpe_any :=
  first
    [ match goal with
      | |- wpe (let '(_, _) := ?x in _) _ _ => destruct x
      end
    | apply wpe_bind; apply (wpe_frame (fun _ : World => tt));
      [ intros ?; reflexivity | intros [?|?] ? _; [| exact I] ] ].

(** C9. The refresh protocol does not cut the auth token it logs: every
    [refresh_credentials] that returns has written the new token to the log
    in full, after the ROCKSTAR_NEW_AUTH_REFRESH prefix. *)
Theorem refresh_credentials_logs_new_token (w w' : World) :
  refresh_credentials w = (Ok tt, w') ->
  exists token,
    _current_auth_token (client w') = Some token
    /\ In [Text ("ROCKSTAR_NEW_AUTH_REFRESH: " ++ token)] (logged w').
Proof.
  intros Hrun.
  assert (H : wpe refresh_credentials
                (fun r w' => match r with
                             | Ok _ => exists token,
                                 _current_auth_token (client w') = Some token
                                 /\ In [Text ("ROCKSTAR_NEW_AUTH_REFRESH: " ++ token)] (logged w')
                             | Raise _ => True
                             end) w).
  { unfold refresh_credentials. apply wpe_try_except.
    do 22 wpe_any.
    unfold wpe, logged. cbn.
    destruct (negb _); cbn; eexists; (split; [reflexivity |]); cbn; auto. }
  unfold wpe in H. rewrite Hrun in H. exact H.
Qed.

(** C9, witness: the refresh of a signed-in manager whose auth token is
    0123456789abcdef writes the token it gets, fedcba9876543210, to the
    log in full. *)
Lemma refresh_credentials_logs_new_token_witness :
  refresh_credentials (signed_in refresh_script)
  = (Ok tt, (refresh_credentials (signed_in refresh_script)).2)
  /\ exists token,
       _current_auth_token (client (refresh_credentials (signed_in refresh_script)).2)
       = Some token
       /\ In [Text ("ROCKSTAR_NEW_AUTH_REFRESH: " ++ token)]
             (logged (refresh_credentials (signed_in refresh_script)).2).
Proof.
  split; [vm_compute; reflexivity |].
  apply (refresh_credentials_logs_new_token (signed_in refresh_script)).
  vm_compute. reflexivity.
Defined.

(** The old token is written out as well. *)
Lemma refresh_credentials_logs_old_token :
  In [Text "ROCKSTAR_OLD_AUTH_REFRESH: 0123456789abcdef"]
     (logged (refresh_credentials (signed_in refresh_script)).2).
Proof. vm_compute. tauto. Qed.

(** ** The played games *)

Lemma collect_pc_spec (games : list Json) :
  forall (acc ids : list Json),
    collect_pc games acc = Ok ids ->
    exists new, ids = (acc ++ new)%list /\ Forall2 id_of (pc_entries games) new.
Proof.
  induction games as [|game rest IH]; intros acc ids H; cbn in H.
  - exists []. split; [injection H as <-; symmetry; apply app_nil_r | constructor].
  - unfold pc_entries. cbn. unfold platform_is_pc at 1.
    destruct (json_getitem game "platform") as [platform | e]; [| discriminate].
    destruct (json_eqb_str platform "PC").
    + destruct (json_getitem game "id") as [id | e] eqn:Hid; [| discriminate].
      apply IH in H as (new & -> & Hnew).
      exists (id :: new). split; [rewrite <- app_assoc; reflexivity |].
      constructor; [exact Hid | exact Hnew].
    + apply IH in H. exact H.
Qed.

Lemma collect_pc_total (games : list Json) :
  Forall well_formed_game games ->
  forall acc, exists ids, collect_pc games acc = Ok ids.
Proof.
  induction 1 as [|game rest [[platform Hp] [id Hid]] _ IH]; intros acc; cbn.
  - eexists. reflexivity.
  - rewrite Hp, Hid. destruct (json_eqb_str platform "PC"); apply IH.
Qed.

Lemma Forall2_nil_iff {A B} (R : A -> B -> Prop) (l : list A) (k : list B) :
  Forall2 R l k -> (k = [] <-> l = []).
Proof. intros H. destruct H; split; intros; congruence. Qed.

(** C8. A failure of the profile fetch comes out of [get_played_games]
    unchanged, after one error line in the log.  When the fetch returns a
    document, whatever [get_played_games] returns is the list of the ids of
    the entries of [games_played] whose platform is PC, in their order, and
    it is empty exactly when there is no such entry; and it does return when
    [games_played] is a list of entries that have a platform and an id. *)
Theorem get_played_games_pc_ids (w : World) :
  match _get_user_json None w with
  | (Raise e, w1) =>
      exists message, get_played_games w = (Raise e, with_event (Log Error message) w1)
  | (Ok doc, w1) =>
      (forall ids w', get_played_games w = (Ok ids, w') ->
         w' = w1
         /\ exists user_doc played games,
              json_getitem doc "user" = Ok user_doc
              /\ json_getitem user_doc "games_played" = Ok played
              /\ json_iter played = Ok games
              /\ Forall2 id_of (pc_entries games) ids
              /\ (ids = [] <-> pc_entries games = []))
      /\ (forall user_doc games,
            json_getitem doc "user" = Ok user_doc ->
            json_getitem user_doc "games_played" = Ok (JArr games) ->
            Forall well_formed_game games ->
            exists ids, get_played_games w = (Ok ids, w1))
  end.
Proof.
  unfold get_played_games, try_except, bind.
  destruct (_get_user_json None w) as [[doc | e] w1]; [| eexists; reflexivity].
  unfold lift. split.
  - intros ids w' H.
    destruct (json_getitem doc "user") as [user_doc | e] eqn:Hu; [| discriminate].
    destruct (json_getitem user_doc "games_played") as [played | e] eqn:Hg; [| discriminate].
    destruct (json_iter played) as [games | e] eqn:Hi; [| discriminate].
    destruct (collect_pc games []) as [ids' | e] eqn:Hc; [| discriminate].
    injection H as <- <-. split; [reflexivity |].
    apply collect_pc_spec in Hc as (new & -> & Hnew). cbn.
    exists user_doc, played, games.
    split; [reflexivity |]. split; [exact Hg |]. split; [exact Hi |].
    split; [exact Hnew | apply (Forall2_nil_iff _ _ _ Hnew)].
  - intros user_doc games Hu Hg Hwf. rewrite Hu, Hg. cbn.
    destruct (collect_pc_total games Hwf []) as [ids Hids]. rewrite Hids.
    exists ids. reflexivity.
Qed.

(** The document of the specification gives A and C. *)
Lemma get_played_games_example :
  (get_played_games (signed_in steady_script)).1 = Ok [JStr "A"; JStr "C"].
Proof. vm_compute. reflexivity. Qed.

(** ** The credentials dictionary *)

(** C10. [get_credentials] allocates nothing: it returns the reference
    held in [user], and the dictionary behind that reference, the user's own,
    now carries the four credential entries next to the display name and the
    account id it had; nothing else changes. *)
Theorem get_credentials_in_place (w : World) (ref : nat) (d : gmap string CredVal) :
  user (client w) = Some ref ->
  heap w !! ref = Some d ->
  (get_credentials w).1 = Ok ref
  /\ user (client (get_credentials w).2) = Some ref
  /\ next_ref (get_credentials w).2 = next_ref w
  /\ heap (get_credentials w).2 !! ref = Some (credentials_of (client w) d)
  /\ (forall other, other <> ref -> heap (get_credentials w).2 !! other = heap w !! other)
  /\ credentials_of (client w) d !! "session_object"
     = Some (CPickledSession (_current_session (client w)))
  /\ credentials_of (client w) d !! "current_auth_token"
     = Some (CStr (_current_auth_token (client w)))
  /\ credentials_of (client w) d !! "refresh_token"
     = Some (CPickledToken (refresh_token (client w)))
  /\ credentials_of (client w) d !! "fingerprint" = Some (CStr (_fingerprint (client w)))
  /\ credentials_of (client w) d !! "display_name" = d !! "display_name"
  /\ credentials_of (client w) d !! "rockstar_id" = d !! "rockstar_id".
Proof.
  intros Hu Hd.
  unfold get_credentials, bind, get_client, dict_setitem, ret, credentials_of.
  rewrite Hu. cbn. rewrite Hu.
  split; [reflexivity |]. split; [reflexivity |]. split; [reflexivity |].
  split.
  { rewrite !lookup_insert_eq. cbn. rewrite Hd. reflexivity. }
  split.
  { intros other Hne. rewrite !lookup_insert_ne by congruence. reflexivity. }
  repeat split; simplify_map_eq; reflexivity.
Qed.

(** C10, witness: after a sign-in the user's dictionary is number 0. *)
Lemma get_credentials_in_place_witness :
  let w := (authenticate (signed_in steady_script)).2 in
  let d := default ∅ (heap w !! 0%nat) in
  user (client w) = Some 0%nat
  /\ heap w !! 0%nat = Some d
  /\ (get_credentials w).1 = Ok 0%nat
  /\ heap (get_credentials w).2 !! 0%nat = Some (credentials_of (client w) d).
Proof.
  cbv zeta.
  assert (Hu : user (client (authenticate (signed_in steady_script)).2) = Some 0%nat)
    by (vm_compute; reflexivity).
  assert (Hd : heap (authenticate (signed_in steady_script)).2 !! 0%nat
               = Some (default ∅ (heap (authenticate (signed_in steady_script)).2 !! 0%nat)))
    by (vm_compute; reflexivity).
  split; [exact Hu |]. split; [exact Hd |].
  destruct (get_credentials_in_place _ _ _ Hu Hd) as (H1 & _ & _ & H4 & _).
  split; [exact H1 | exact H4].
Defined.

(** C6, witness: a jar that already holds an rsso cookie. *)
Lemma update_cookie_keeps_latest_rsso_witness :
  let w := signed_in steady_script in
  let s := mkSession [site_cookie "ScAuthTokenData" "0123456789abcdef";
                      site_cookie "rsso_a1" "session-1";
                      site_cookie "TS019978c2" "ts-1"] 300 in
  let first := site_cookie "rsso_b2" "session-2" in
  let second := site_cookie "rsso_c3" "session-3" in
  _current_session (client w) = Some s
  /\ is_rsso (cookie_name first) = true
  /\ is_rsso (cookie_name second) = true
  /\ ((update_cookie first ;; update_cookie second) w).1 = Ok tt
  /\ exists s', _current_session (client ((update_cookie first ;; update_cookie second) w).2)
                = Some s'
                /\ rsso_cookies (cookies s') = [create_cookie second].
Proof.
  cbv zeta.
  split; [reflexivity |]. split; [reflexivity |]. split; [reflexivity |].
  apply (update_cookie_keeps_latest_rsso (signed_in steady_script)
           (mkSession [site_cookie "ScAuthTokenData" "0123456789abcdef";
                       site_cookie "rsso_a1" "session-1";
                       site_cookie "TS019978c2" "ts-1"] 300)
           (site_cookie "rsso_b2" "session-2") (site_cookie "rsso_c3" "session-3"));
    reflexivity.
Defined.

(** * Further properties *)

(** ** Cookie updates, continued *)

Lemma filter_filter {A} (f g : A -> bool) (l : list A) :
  List.filter f (List.filter g l) = List.filter (fun x => g x && f x) l.
Proof.
  induction l as [|a l IH]; [reflexivity |]. cbn.
  destruct (g a); cbn; [destruct (f a) |]; rewrite IH; reflexivity.
Qed.

Lemma drop_old_rsso_filter (visit : list Cookie) :
  forall jar,
    drop_old_rsso visit jar
    = List.filter
        (fun c => negb (existsb (fun v => is_rsso (cookie_name v)
                                          && String.eqb (cookie_name c) (cookie_name v)) visit))
        jar.
Proof.
  induction visit as [|old rest IH]; intros jar; cbn.
  - symmetry. clear. induction jar as [|a jar IH]; [reflexivity |]. cbn. f_equal. exact IH.
  - rewrite IH. destruct (is_rsso (cookie_name old)) eqn:Hr.
    + unfold remove_cookie_by_name. rewrite filter_filter.
      apply filter_ext. intros c. cbn. rewrite negb_orb. reflexivity.
    + apply filter_ext. intros c. reflexivity.
Qed.

Lemma drop_old_rsso_self (jar : Jar) :
  drop_old_rsso jar jar = List.filter (fun c => negb (is_rsso (cookie_name c))) jar.
Proof.
  rewrite drop_old_rsso_filter. apply filter_ext_in. intros c Hin. f_equal.
  destruct (is_rsso (cookie_name c)) eqn:Hr.
  - apply existsb_exists. exists c. split; [exact Hin |].
    rewrite Hr, String.eqb_refl. reflexivity.
  - apply not_true_is_false. intros H. apply existsb_exists in H as (v & _ & Hv).
    apply andb_true_iff in Hv as [Hv1 Hv2]. apply String.eqb_eq in Hv2.
    rewrite Hv2 in Hr. congruence.
Qed.

Lemma set_cookie_new (c : Cookie) (jar : Jar) :
  (forall x, In x jar -> cookie_name x <> cookie_name c) ->
  set_cookie c jar = (jar ++ [c])%list.
Proof.
  induction jar as [|old rest IH]; intros H; [reflexivity |]. cbn.
  destruct (same_slot old c) eqn:Hs.
  - apply same_slot_name in Hs. exfalso. apply (H old); [left; reflexivity | exact Hs].
  - f_equal. apply IH. intros x Hx. apply H. right. exact Hx.
Qed.

Lemma jar_after_update_shape (cookie : Cookie) (jar : Jar) :
  jar_after_update cookie jar
  = (List.filter (survives_update cookie) jar ++ [create_cookie cookie])%list.
Proof.
  unfold jar_after_update, jar_set.
  assert (Hf : remove_cookie_by_name (cookie_name cookie)
                 (if is_rsso (cookie_name cookie) then drop_old_rsso jar jar else jar)
               = List.filter (survives_update cookie) jar).
  { unfold remove_cookie_by_name, survives_update.
    destruct (is_rsso (cookie_name cookie)).
    - rewrite drop_old_rsso_self, filter_filter. apply filter_ext. intros c. cbn.
      apply andb_comm.
    - apply filter_ext. intros c. cbn. rewrite andb_true_r. reflexivity. }
  rewrite Hf. apply set_cookie_new. intros x Hx. apply filter_In in Hx as [_ Hx].
  unfold survives_update in Hx. apply andb_true_iff in Hx as [Hx _].
  rewrite create_cookie_name. apply negb_true_iff, String.eqb_neq in Hx. exact Hx.
Qed.

Lemma survives_update_stored (cookie : Cookie) :
  survives_update cookie (create_cookie cookie) = false.
Proof. unfold survives_update. rewrite create_cookie_name, String.eqb_refl. reflexivity. Qed.

Lemma filter_idem {A} (f : A -> bool) (l : list A) :
  List.filter f (List.filter f l) = List.filter f l.
Proof. rewrite filter_filter. apply filter_ext. intros x. destruct (f x); reflexivity. Qed.

Lemma jar_after_update_idem (cookie : Cookie) (jar : Jar) :
  jar_after_update cookie (jar_after_update cookie jar) = jar_after_update cookie jar.
Proof.
  rewrite !jar_after_update_shape, List.filter_app, filter_idem. cbn.
  rewrite survives_update_stored, app_nil_r. reflexivity.
Qed.



Lemma jar_getitem_after_update (cookie : Cookie) (jar : Jar) :
  jar_getitem (cookie_name cookie) (jar_after_update cookie jar)
  = if String.eqb (cookie_value (create_cookie cookie)) EmptyString
    then Raise (KeyError (cookie_name cookie))
    else Ok (cookie_value (create_cookie cookie)).
Proof.
  rewrite jar_after_update_shape. unfold jar_getitem.
  rewrite List.filter_app, filter_filter. cbn.
  rewrite create_cookie_name, String.eqb_refl.
  rewrite (filter_none (fun x => survives_update cookie x
                                 && String.eqb (cookie_name x) (cookie_name cookie))).
  - reflexivity.
  - intros x _. unfold survives_update.
    destruct (String.eqb (cookie_name x) (cookie_name cookie)); cbn;
      [reflexivity | apply andb_false_r].
Qed.

(** X2. After [update_cookie], [get_named_cookie] of the cookie's name
    never meets a conflict: it returns the value the jar stored, or raises
    [KeyError] when that value is the empty string. *)
Theorem get_named_cookie_after_update (cookie : Cookie) (w : World) (s : Session) :
  _current_session (client w) = Some s ->
  ((update_cookie cookie ;; get_named_cookie (cookie_name cookie)) w).1
  = if String.eqb (cookie_value (create_cookie cookie)) EmptyString
    then Raise (KeyError (cookie_name cookie))
    else Ok (cookie_value (create_cookie cookie)).
Proof.
  intros Hs. unfold bind at 1. rewrite (update_cookie_run cookie w s Hs).
  unfold get_named_cookie, bind, session, get_client, lift. cbn.
  apply jar_getitem_after_update.
Qed.

Lemma get_named_cookie_after_update_witness :
  let w := signed_in steady_script in
  let cookie := mkCookie "ScAuthTokenData" "new-token" "signin.rockstargames.com" "/" in
  _current_session (client w)
  = Some (mkSession [site_cookie "ScAuthTokenData" "0123456789abcdef";
                     site_cookie "rsso_a1" "session-1";
                     site_cookie "TS019978c2" "ts-1"] 300)
  /\ ((update_cookie cookie ;; get_named_cookie (cookie_name cookie)) w).1 = Ok "new-token".
Proof.
  cbv zeta. split; [reflexivity |].
  apply (get_named_cookie_after_update
           (mkCookie "ScAuthTokenData" "new-token" "signin.rockstargames.com" "/")
           (signed_in steady_script)
           (mkSession [site_cookie "ScAuthTokenData" "0123456789abcdef";
                       site_cookie "rsso_a1" "session-1";
                       site_cookie "TS019978c2" "ts-1"] 300)).
  reflexivity.
Defined.

(** X3. [update_cookie] is idempotent: putting the same cookie a second
    time changes nothing, with or without a session. *)
Theorem update_cookie_twice (cookie : Cookie) (w : World) :
  (update_cookie cookie ;; update_cookie cookie) w = update_cookie cookie w.
Proof.
  unfold bind at 1.
  destruct (_current_session (client w)) as [s |] eqn:Hs.
  - rewrite (update_cookie_run cookie w s Hs).
    erewrite update_cookie_run by reflexivity. cbn.
    rewrite jar_after_update_idem. reflexivity.
  - destruct w as [c h n t p k tr]. destruct c. cbn in Hs. subst.
    unfold update_cookie. destruct (is_rsso (cookie_name cookie)); reflexivity.
Qed.

Lemma scan_rsso_app (l1 l2 : list Cookie) :
  forall name found,
    scan_rsso (l1 ++ l2) name found
    = scan_rsso l2 (scan_rsso l1 name found).1 (scan_rsso l1 name found).2.
Proof.
  induction l1 as [|c l1 IH]; intros name found; [reflexivity |]. cbn.
  destruct (is_rsso (cookie_name c)); apply IH.
Qed.

Lemma scan_rsso_none (l : list Cookie) :
  rsso_cookies l = [] ->
  forall name found, scan_rsso l name found = (name, found).
Proof.
  induction l as [|c l IH]; intros Hnil name found; [reflexivity |].
  cbn in *. destruct (is_rsso (cookie_name c)); [discriminate | apply IH, Hnil].
Qed.

(** X4. Once an rsso cookie has gone through [update_cookie], the search
    for the rsso cookie at the head of [refresh_credentials] finds that
    cookie and no other, whatever rsso cookies the jar held before. *)
Theorem scan_rsso_after_update (cookie : Cookie) (jar : Jar) :
  is_rsso (cookie_name cookie) = true ->
  scan_rsso (jar_after_update cookie jar) None ∅
  = (Some (cookie_name cookie),
     {[cookie_name cookie := cookie_value (create_cookie cookie)]}).
Proof.
  intros Hr. rewrite jar_after_update_shape, scan_rsso_app.
  rewrite (scan_rsso_none (List.filter (survives_update cookie) jar)).
  - cbn [fst snd scan_rsso]. rewrite create_cookie_name, Hr. reflexivity.
  - apply filter_none. intros c Hin. apply filter_In in Hin as [_ Hc].
    unfold survives_update in Hc. rewrite Hr in Hc. cbn in Hc.
    apply andb_true_iff in Hc as [_ Hc]. apply negb_true_iff. exact Hc.
Qed.

Lemma scan_rsso_after_update_witness :
  let cookie := site_cookie "rsso_b2" "session-2" in
  let jar := [site_cookie "rsso_a1" "session-1"; site_cookie "TS019978c2" "ts-1"] in
  is_rsso (cookie_name cookie) = true
  /\ scan_rsso (jar_after_update cookie jar) None ∅
     = (Some (cookie_name cookie),
        {[cookie_name cookie := cookie_value (create_cookie cookie)]}).
Proof.
  cbv zeta. split; [reflexivity |].
  apply (scan_rsso_after_update (site_cookie "rsso_b2" "session-2")). reflexivity.
Defined.

(** ** Sessions stored and restored *)

(** X5. The credentials of a signed-in manager, given to [create_session]
    on a new manager, bring back its session with the redirect cap it had
    and an empty cookie jar; when the manager had no session, the restore
    raises [AttributeError] and leaves none. *)
Theorem create_session_restores (w : World) (ref : nat) (script : nat -> Reply) (now : Z) :
  user (client w) = Some ref ->
  let stored := default ∅ (heap (get_credentials w).2 !! ref) in
  let restored := create_session (Some stored) (fresh_world script now) in
  match _current_session (client w) with
  | Some s =>
      restored.1 = Ok tt
      /\ _current_session (client restored.2) = Some (mkSession [] (max_redirects s))
  | None =>
      restored.1 = Raise AttributeError /\ _current_session (client restored.2) = None
  end.
Proof.
  intros Hu. cbv zeta.
  unfold get_credentials, bind, get_client, dict_setitem, ret. rewrite Hu. cbn.
  unfold create_session, bind, get_client. cbn.
  repeat (rewrite lookup_insert_eq; cbn [default from_option]).
  unfold id.
  rewrite !lookup_insert_ne by done.
  rewrite lookup_insert_eq.
  destruct (_current_session (client w)) as [s |]; cbn; split; reflexivity.
Qed.

Lemma create_session_restores_witness :
  let w := (authenticate (signed_in steady_script)).2 in
  let stored := default ∅ (heap (get_credentials w).2 !! 0%nat) in
  let restored := create_session (Some stored) (fresh_world steady_script 0) in
  user (client w) = Some 0%nat
  /\ match _current_session (client w) with
     | Some s =>
         restored.1 = Ok tt
         /\ _current_session (client restored.2) = Some (mkSession [] (max_redirects s))
     | None =>
         restored.1 = Raise AttributeError /\ _current_session (client restored.2) = None
     end.
Proof.
  cbv zeta.
  assert (Hu : user (client (authenticate (signed_in steady_script)).2) = Some 0%nat)
    by (vm_compute; reflexivity).
  split; [exact Hu |].
  apply (create_session_restores _ 0%nat steady_script 0 Hu).
Defined.

(** ** The refresh token, continued *)

(** X6. A read that finds the refresh token expired leaves a token without
    expiry, so that every later read raises [TypeError], whatever the clock,
    until the token is set again. *)
Theorem get_refresh_token_after_expiry (w : World) (e later : Z) :
  _expires (refresh_token (client w)) = Some e ->
  e <= clock w ->
  (get_refresh_token w).1 = Ok None
  /\ (get_refresh_token (with_clock later (get_refresh_token w).2)).1 = Raise TypeError.
Proof.
  intros He Hle.
  unfold get_refresh_token, bind, get_client, time, lift, expired. cbn. rewrite He. cbn.
  apply Z.leb_le in Hle. rewrite Hle. cbn. split; reflexivity.
Qed.

Lemma get_refresh_token_after_expiry_witness :
  let w := with_clock 3000000000 (signed_in steady_script) in
  _expires (refresh_token (client w)) = Some 2230720000
  /\ 2230720000 <= clock w
  /\ (get_refresh_token w).1 = Ok None
  /\ (get_refresh_token (with_clock 3000000001 (get_refresh_token w).2)).1 = Raise TypeError.
Proof.
  cbv zeta.
  assert (He : _expires (refresh_token (client (with_clock 3000000000 (signed_in steady_script))))
               = Some 2230720000) by reflexivity.
  assert (Hle : 2230720000 <= clock (with_clock 3000000000 (signed_in steady_script)))
    by (cbn; lia).
  split; [exact He |]. split; [exact Hle |].
  apply (get_refresh_token_after_expiry _ 2230720000 3000000001 He Hle).
Defined.

(** ** Cookie strings *)

Lemma append_assoc (a b c : string) : ((a ++ b) ++ c = a ++ (b ++ c))%string.
Proof.
  induction a as [|x a IH]; [reflexivity |].
  change (String x ((a ++ b) ++ c) = String x (a ++ (b ++ c))). f_equal. exact IH.
Qed.

Lemma append_nil_l (a : string) : (EmptyString ++ a)%string = a.
Proof. reflexivity. Qed.

Lemma append_nil_r (a : string) : (a ++ EmptyString)%string = a.
Proof.
  induction a as [|x a IH]; [reflexivity |].
  change (String x (a ++ EmptyString) = String x a). f_equal. exact IH.
Qed.

Lemma length_append (a b : string) :
  String.length (a ++ b) = (String.length a + String.length b)%nat.
Proof.
  induction a as [|x a IH]; [reflexivity |].
  change (S (String.length (a ++ b)) = S (String.length a + String.length b)).
  f_equal. exact IH.
Qed.

Lemma substring_prefix (a b : string) : substring 0 (String.length a) (a ++ b) = a.
Proof.
  induction a as [|x a IH].
  - destruct b; reflexivity.
  - change (String x (substring 0 (String.length a) (a ++ b)) = String x a).
    f_equal. exact IH.
Qed.

Lemma cookie_string_fold (d : list (string * string)) :
  forall acc,
    fold_left (fun acc kv => acc ++ fst kv ++ "=" ++ snd kv ++ ";") d acc
    = (acc ++ String.concat EmptyString (map (fun kv => pair_text kv ++ ";") d))%string.
Proof.
  induction d as [|kv d IH]; intros acc; cbn.
  - symmetry. apply append_nil_r.
  - rewrite IH. destruct d as [|kv' d'].
    + cbn. rewrite append_nil_r. unfold pair_text. rewrite !append_assoc. reflexivity.
    + cbn [map String.concat]. unfold pair_text. cbn. rewrite !append_assoc. reflexivity.
Qed.

Lemma concat_trailing (items : list string) :
  items <> [] ->
  String.concat EmptyString (map (fun x => x ++ ";") items)
  = (String.concat ";" items ++ ";")%string.
Proof.
  induction items as [|x items IH]; intros Hne; [congruence |].
  destruct items as [|y items'].
  - reflexivity.
  - cbn [map String.concat] in *. rewrite IH by discriminate.
    cbn. rewrite !append_assoc. reflexivity.
Qed.

Lemma assoc_set_fresh (k v : string) (d : list (string * string)) :
  ~ In k (map fst d) -> assoc_set k v d = (d ++ [(k, v)])%list.
Proof.
  induction d as [|[k' v'] d IH]; intros Hn; [reflexivity |]. cbn in *.
  destruct (String.eqb k' k) eqn:E.
  - apply String.eqb_eq in E. tauto.
  - rewrite IH by tauto. reflexivity.
Qed.

Lemma get_dict_distinct (jar : Jar) :
  List.NoDup (map cookie_name jar) ->
  get_dict jar = map (fun c => (cookie_name c, cookie_value c)) jar.
Proof.
  unfold get_dict.
  assert (H : forall d,
             List.NoDup (map fst d ++ map cookie_name jar) ->
             fold_left (fun d c => assoc_set (cookie_name c) (cookie_value c) d) jar d
             = (d ++ map (fun c => (cookie_name c, cookie_value c)) jar)%list).
  { induction jar as [|c jar IH]; intros d Hd; cbn.
    - symmetry. apply app_nil_r.
    - rewrite assoc_set_fresh.
      + rewrite IH.
        * rewrite <- app_assoc. reflexivity.
        * rewrite map_app. cbn. rewrite <- app_assoc. exact Hd.
      + cbn in Hd. apply List.NoDup_remove_2 in Hd. intros Hin. apply Hd.
        apply in_or_app. left. exact Hin. }
  intros Hnd. apply (H []). exact Hnd.
Qed.

(** X7. [get_cookies_for_headers] joins name=value for the names of the
    jar with semicolons and no semicolon at the end (the empty string for an
    empty jar); when the names in the jar are distinct, that is one pair per
    cookie in the jar's order.  The world is left as it was. *)
Theorem get_cookies_for_headers_joins (w : World) (s : Session) :
  _current_session (client w) = Some s ->
  get_cookies_for_headers w
  = (Ok (String.concat ";" (map pair_text (get_dict (cookies s)))), w)
  /\ (List.NoDup (map cookie_name (cookies s)) ->
      get_cookies_for_headers w
      = (Ok (String.concat ";"
               (map (fun c => cookie_name c ++ "=" ++ cookie_value c) (cookies s))), w)).
Proof.
  intros Hs.
  assert (H : get_cookies_for_headers w
              = (Ok (String.concat ";" (map pair_text (get_dict (cookies s)))), w)).
  { unfold get_cookies_for_headers, session, bind, get_client, ret, raise. rewrite Hs.
    f_equal. f_equal.
    rewrite cookie_string_fold, append_nil_l.
    destruct (get_dict (cookies s)) as [|kv d] eqn:Hd; [reflexivity |].
    rewrite <- (map_map pair_text (fun x => x ++ ";")).
    rewrite concat_trailing by discriminate.
    rewrite length_append. cbn [String.length].
    replace (String.length (String.concat ";" (map pair_text (kv :: d))) + 1 - 1)%nat
      with (String.length (String.concat ";" (map pair_text (kv :: d)))) by lia.
    apply substring_prefix. }
  split; [exact H |].
  intros Hnd. rewrite H, (get_dict_distinct _ Hnd), map_map. reflexivity.
Qed.

Lemma get_cookies_for_headers_joins_witness :
  let w := signed_in steady_script in
  let s := mkSession [site_cookie "ScAuthTokenData" "0123456789abcdef";
                      site_cookie "rsso_a1" "session-1";
                      site_cookie "TS019978c2" "ts-1"] 300 in
  _current_session (client w) = Some s
  /\ get_cookies_for_headers w
     = (Ok (String.concat ";" (map pair_text (get_dict (cookies s)))), w).
Proof.
  cbv zeta. split; [reflexivity |].
  apply (get_cookies_for_headers_joins (signed_in steady_script)). reflexivity.
Defined.

Lemma assoc_get_set (k k' v : string) (d : list (string * string)) :
  assoc_get k (assoc_set k' v d) = if String.eqb k' k then Some v else assoc_get k d.
Proof.
  induction d as [|[k0 v0] d IH]; [reflexivity |].
  cbn [assoc_set assoc_get].
  destruct (String.eqb_spec k0 k') as [-> | Hne]; cbn [assoc_get].
  - destruct (String.eqb k' k); reflexivity.
  - rewrite IH.
    destruct (String.eqb_spec k0 k) as [-> | Hne']; [| reflexivity].
    destruct (String.eqb_spec k' k) as [-> | _]; [congruence | reflexivity].
Qed.

Lemma assoc_get_fold (k : string) (morsels : list (string * string)) :
  forall d,
    assoc_get k (fold_left (fun d m => assoc_set (fst m) (snd m) d) morsels d)
    = match last_value k morsels with
      | Some v => Some v
      | None => assoc_get k d
      end.
Proof.
  induction morsels as [|[k' v] morsels IH]; intros d; cbn; [reflexivity |].
  rewrite IH, assoc_get_set.
  destruct (last_value k morsels); [reflexivity |].
  destruct (String.eqb k' k); reflexivity.
Qed.

(** X8. [get_bearer_from_cookie_jar] returns the value of the last morsel
    whose key is BearerToken, and raises [KeyError] exactly when the jar
    yields no such morsel. *)
Theorem get_bearer_from_cookie_jar_last (morsels : list (string * string)) (w : World) :
  (get_bearer_from_cookie_jar morsels w).1
  = match last_value "BearerToken" morsels with
    | Some v => Ok v
    | None => Raise (KeyError "BearerToken")
    end.
Proof.
  unfold get_bearer_from_cookie_jar, bind, log, emit. cbn.
  rewrite assoc_get_fold. destruct (last_value "BearerToken" morsels); reflexivity.
Qed.

(** ** The profile fetch, continued *)

(** Case analysis on the innermost scrutinee of the goal, keeping the
    equation. *)
Ltac case_inner :=
  match goal with
  | |- context [match ?x with _ => _ end] =>
      lazymatch x with
      | context [match _ with _ => _ end] => fail
      | _ => let E := fresh "E" in destruct x eqn:E; cbn
      end
  end.

Ltac run_get_user_json :=
  unfold _get_user_json, session_send, get_credentials, session, set_jar, resp_json,
    log, print_exc, network, dict_setitem, _store_credentials, modify_client, emit,
    get_client, lift, raise, ret, try_except, bind.

Lemma get_user_json_post (message : option string) (w : World) :
  wpe (_get_user_json message)
      (fun r w' =>
         match r with
         | Ok doc =>
             reply_exn (provider w (calls w)) = None
             /\ reply_json (provider w (calls w)) = Some doc
             /\ calls w' = S (calls w)
             /\ exists s' v,
                  _current_session (client w') = Some s'
                  /\ jar_getitem "ScAuthTokenData" (cookies s') = Ok v
                  /\ _current_auth_token (client w') = Some v
         | Raise _ => True
         end) w.
Proof.
  destruct w as [c h n t p k tr]. destruct c as [dbg b r rt fp u s al tok fa].
  unfold wpe. run_get_user_json. destruct message; cbn.
  all: repeat case_inner; try exact I.
  all: repeat split; try assumption; try reflexivity.
  all: eexists; eexists; (split; [reflexivity |]); (split; [eassumption | reflexivity]).
Qed.

(** X9. A profile fetch that returns has made exactly one request, hands
    back the JSON body of its answer, and leaves the cached auth token equal
    to the ScAuthTokenData cookie of the session's jar. *)
Theorem get_user_json_mirrors_cookie (message : option string) (w w' : World) (doc : Json) :
  _get_user_json message w = (Ok doc, w') ->
  reply_exn (provider w (calls w)) = None
  /\ reply_json (provider w (calls w)) = Some doc
  /\ calls w' = S (calls w)
  /\ exists s' v,
       _current_session (client w') = Some s'
       /\ jar_getitem "ScAuthTokenData" (cookies s') = Ok v
       /\ _current_auth_token (client w') = Some v.
Proof.
  intros H. pose proof (get_user_json_post message w) as Hp.
  unfold wpe in Hp. rewrite H in Hp. exact Hp.
Qed.

Lemma get_user_json_mirrors_cookie_witness :
  let w := signed_in steady_script in
  let w' := (_get_user_json None w).2 in
  _get_user_json None w = (Ok profile_document, w')
  /\ reply_exn (provider w (calls w)) = None
  /\ reply_json (provider w (calls w)) = Some profile_document
  /\ calls w' = S (calls w)
  /\ exists s' v,
       _current_session (client w') = Some s'
       /\ jar_getitem "ScAuthTokenData" (cookies s') = Ok v
       /\ _current_auth_token (client w') = Some v.
Proof.
  cbv zeta.
  assert (H : _get_user_json None (signed_in steady_script)
              = (Ok profile_document, (_get_user_json None (signed_in steady_script)).2))
    by (vm_compute; reflexivity).
  split; [exact H |].
  apply (get_user_json_mirrors_cookie None _ _ _ H).
Defined.

(** X10. Without a cached auth token the profile fetch sends nothing: it
    raises, the provider is not called, and the client is left as it was. *)
Theorem get_user_json_without_token (message : option string) (w : World) :
  _current_auth_token (client w) = None ->
  (exists e, (_get_user_json message w).1 = Raise e)
  /\ calls (_get_user_json message w).2 = calls w
  /\ client (_get_user_json message w).2 = client w.
Proof.
  intros Htok.
  destruct w as [c h n t p k tr]. destruct c as [dbg b r rt fp u s al tok fa].
  cbn in Htok. subst tok.
  run_get_user_json. destruct message; cbn.
  all: repeat case_inner.
  all: split; [eexists; reflexivity | split; reflexivity].
Qed.

Lemma get_user_json_without_token_witness :
  let w := (set_current_auth_token None (signed_in steady_script)).2 in
  _current_auth_token (client w) = None
  /\ (exists e, (_get_user_json None w).1 = Raise e)
  /\ calls (_get_user_json None w).2 = calls w
  /\ client (_get_user_json None w).2 = client w.
Proof.
  cbv zeta. split; [reflexivity |].
  apply (get_user_json_without_token None
           (set_current_auth_token None (signed_in steady_script)).2).
  reflexivity.
Defined.

Lemma get_user_json_status (message : option string) :
  preserves (fun w => (user (client w), pending w)) (_get_user_json message).
Proof. unfold _get_user_json. frame. Qed.

Lemma refresh_credentials_status :
  preserves (fun w => (user (client w), pending w)) refresh_credentials.
Proof. unfold refresh_credentials. frame. Qed.

Lemma is_authenticated_of_status (w w' : World) :
  (user (client w'), pending w') = (user (client w), pending w) ->
  is_authenticated (client w') = is_authenticated (client w).
Proof.
  unfold is_authenticated, pending. intros H. injection H as Hu Hp. rewrite Hu, Hp. reflexivity.
Qed.

(** X11. The profile fetch, the bearer fetch, the played-games fetch and
    the refresh protocol never change what [is_authenticated] answers,
    whether they return or raise: only [authenticate] and the setter of the
    auth-lost slot do. *)
Theorem fetches_keep_is_authenticated (w : World) :
  (forall message,
      is_authenticated (client (_get_user_json message w).2) = is_authenticated (client w))
  /\ is_authenticated (client (_get_bearer w).2) = is_authenticated (client w)
  /\ is_authenticated (client (get_played_games w).2) = is_authenticated (client w)
  /\ is_authenticated (client (refresh_credentials w).2) = is_authenticated (client w).
Proof.
  split; [intros message; apply is_authenticated_of_status, get_user_json_status |].
  split.
  { apply is_authenticated_of_status. revert w.
    change (preserves (fun w => (user (client w), pending w)) _get_bearer).
    unfold _get_bearer. pose proof get_user_json_status. frame. }
  split.
  { apply is_authenticated_of_status. revert w.
    change (preserves (fun w => (user (client w), pending w)) get_played_games).
    unfold get_played_games. pose proof get_user_json_status. frame. }
  apply is_authenticated_of_status, refresh_credentials_status.
Qed.

(** ** [authenticate], continued *)

#[local] Arguments json_getitem : simpl never.
#[local] Arguments json_first : simpl never.

Lemma store_basic_profile_post (b : Json) (w : World) :
  wpe (store_basic_profile b)
      (fun r w' =>
         match r with
         | Ok u =>
             exists token doc name id,
               b = JStr token
               /\ reply_json (provider w (calls w)) = Some doc
               /\ basic_profile_of doc name id
               /\ u = Some (next_ref w)
               /\ user (client w') = Some (next_ref w)
               /\ bearer (client w') = bearer (client w)
               /\ heap w' !! next_ref w
                  = Some (credentials_of (client w') (user_dict (JStr name) id))
               /\ exists rest,
                    trace w'
                    = StoreCredentials (next_ref w)
                        (credentials_of (client w') (user_dict (JStr name) id)) :: rest
         | Raise _ => user (client w') = user (client w)
         end) w.
Proof.
  destruct w as [c h n t p k tr]. destruct c as [dbg br r rt fp u s al tok fa].
  unfold wpe, store_basic_profile, get_credentials, resp_json, log, print_exc, network,
    dict_setitem, new_dict, _store_credentials, modify_client, emit, get_client, lift,
    raise, ret, try_except, bind.
  cbn.
  repeat case_inner; try reflexivity.
  all: repeat (rewrite lookup_insert_eq; cbn [default from_option]); unfold id.
  all: do 4 eexists.
  all: split; [reflexivity |].
  all: split; [reflexivity |].
  all: split; [do 3 eexists; repeat (split; [eassumption |]); eassumption |].
  all: split; [reflexivity |].
  all: split; [reflexivity |].
  all: split; [reflexivity |].
  all: split; [reflexivity | eexists; reflexivity].
Qed.


(** X12. When [authenticate] returns, its result is the reference of a
    dictionary made by this call and now held in [user]; the bearer token
    kept in [bearer] is the string the bearer fetch returned; the
    dictionary holds the display name and the account id found under
    accounts, first item, rockstarAccount of the provider's answer, next to
    the four credential entries; that dictionary is what the
    store-credentials callback was given last; and [get_rockstar_id] now
    returns that account id. *)
Theorem authenticate_result (w w' : World) (u : option nat) :
  authenticate w = (Ok u, w') ->
  exists w1 w2 token doc name id,
    refresh_if_needed w = (Ok tt, w1)
    /\ _get_bearer w1 = (Ok (JStr token), w2)
    /\ reply_json (provider w2 (calls w2)) = Some doc
    /\ basic_profile_of doc name id
    /\ u = Some (next_ref w2)
    /\ user (client w') = Some (next_ref w2)
    /\ bearer (client w') = Some (JStr token)
    /\ heap w' !! next_ref w2 = Some (credentials_of (client w') (user_dict (JStr name) id))
    /\ (exists rest,
           trace w'
           = StoreCredentials (next_ref w2)
               (credentials_of (client w') (user_dict (JStr name) id)) :: rest)
    /\ get_rockstar_id w' = (Ok (CJson id), w').
Proof.
  unfold authenticate. unfold bind at 1.
  destruct (refresh_if_needed w) as [[[] | e] w1] eqn:Hr0; [| discriminate].
  unfold bind at 1. destruct (_get_bearer w1) as [[b | e] w2] eqn:Hb0; [| discriminate].
  unfold bind at 1. cbn [modify_client].
  intros H.
  pose proof (store_basic_profile_post b (with_client (with_bearer (Some b) (client w2)) w2))
    as Hp.
  unfold wpe in Hp. rewrite H in Hp. cbn [fst snd] in Hp.
  destruct Hp as (token & doc & name & rid & -> & Hdoc & Hprof & -> & Huser & Hb & Hheap & Hev).
  exists w1, w2, token, doc, name, rid.
  split; [reflexivity |]. split; [exact Hb0 |]. split; [exact Hdoc |].
  split; [exact Hprof |]. split; [reflexivity |]. split; [exact Huser |].
  split; [exact Hb |]. split; [exact Hheap |]. split; [exact Hev |].
  unfold get_rockstar_id, bind, get_client, dict_getitem. rewrite Huser.
  cbn [next_ref with_client] in Hheap |- *. rewrite Hheap. cbn [default from_option].
  unfold id, credentials_of, user_dict.
  rewrite !lookup_insert_ne by done. rewrite lookup_insert_eq. reflexivity.
Qed.

Lemma authenticate_result_witness :
  let w := signed_in steady_script in
  let w' := (authenticate w).2 in
  authenticate w = (Ok (Some 0%nat), w')
  /\ exists w1 w2 token doc name id,
       refresh_if_needed w = (Ok tt, w1)
       /\ _get_bearer w1 = (Ok (JStr token), w2)
       /\ reply_json (provider w2 (calls w2)) = Some doc
       /\ basic_profile_of doc name id
       /\ Some 0%nat = Some (next_ref w2)
       /\ user (client w') = Some (next_ref w2)
       /\ bearer (client w') = Some (JStr token)
       /\ heap w' !! next_ref w2 = Some (credentials_of (client w') (user_dict (JStr name) id))
       /\ (exists rest,
              trace w'
              = StoreCredentials (next_ref w2)
                  (credentials_of (client w') (user_dict (JStr name) id)) :: rest)
       /\ get_rockstar_id w' = (Ok (CJson id), w').
Proof.
  cbv zeta.
  assert (H : authenticate (signed_in steady_script)
              = (Ok (Some 0%nat), (authenticate (signed_in steady_script)).2))
    by (vm_compute; reflexivity).
  split; [exact H |].
  apply (authenticate_result _ _ _ H).
Defined.



(** X14. The bearer fetch returns the access token of the profile
    document and caches it in [bearer], with the document's refresh token
    in [refresh]; a failure of the profile fetch is re-raised after one
    error line; and when the document has an access token but no refresh
    token, the fetch raises although [bearer] has already been replaced. *)
Theorem get_bearer_caches (w : World) :
  match _get_user_json None w with
  | (Raise e, w1) =>
      exists message, _get_bearer w = (Raise e, with_event (Log Error message) w1)
  | (Ok doc, w1) =>
      forall user_doc auth_token b,
        json_getitem doc "user" = Ok user_doc ->
        json_getitem user_doc "auth_token" = Ok auth_token ->
        json_getitem auth_token "access_token" = Ok b ->
        match json_getitem auth_token "refresh_token" with
        | Ok r =>
            (_get_bearer w).1 = Ok b
            /\ bearer (client (_get_bearer w).2) = Some b
            /\ refresh (client (_get_bearer w).2) = Some r
        | Raise e =>
            (_get_bearer w).1 = Raise e
            /\ bearer (client (_get_bearer w).2) = Some b
            /\ refresh (client (_get_bearer w).2) = refresh (client w1)
        end
  end.
Proof.
  unfold _get_bearer, try_except, bind.
  destruct (_get_user_json None w) as [[doc | e] w1]; [| eexists; reflexivity].
  intros user_doc auth_token b Hu Ha Hb.
  unfold lift, log, emit, modify_client, ret, raise. cbn.
  rewrite Hu, Ha, Hb. cbn.
  destruct (json_getitem auth_token "refresh_token") as [r | e]; cbn;
    repeat split; reflexivity.
Qed.

(** ** The refresh protocol, continued *)

#[local] Arguments scan_rsso : simpl never.
#[local] Arguments jar_contains : simpl never.

Ltac run_refresh_credentials :=
  unfold refresh_credentials, session_send, set_refresh_token, get_refresh_token,
    session, set_jar, resp_json, log, print_exc, network, modify_client, emit,
    get_client, time, lift, raise, ret, try_except, bind, expired.

(** X15. Without an rsso cookie in the session's jar the refresh protocol
    stops before it calls the provider: it raises [TypeError] and no request
    is sent. *)
Theorem refresh_credentials_without_rsso (w : World) (s : Session) :
  _current_session (client w) = Some s ->
  rsso_cookies (cookies s) = [] ->
  (refresh_credentials w).1 = Raise TypeError
  /\ calls (refresh_credentials w).2 = calls w.
Proof.
  intros Hs Hnil.
  destruct w as [c h n t p k tr]. destruct c as [dbg b r rt fp u s0 al tok fa].
  cbn in Hs. subst s0. destruct rt as [tk ex].
  run_refresh_credentials. cbn.
  rewrite (scan_rsso_none _ Hnil). cbn.
  repeat case_inner; split; reflexivity.
Qed.

Lemma refresh_credentials_without_rsso_witness :
  let w := (create_session None ;;
            update_cookie (site_cookie "ScAuthTokenData" "0123456789abcdef") ;;
            set_refresh_token "rmt-1") (fresh_world steady_script 0) in
  _current_session (client w.2)
  = Some (mkSession [site_cookie "ScAuthTokenData" "0123456789abcdef"] 300)
  /\ rsso_cookies [site_cookie "ScAuthTokenData" "0123456789abcdef"] = []
  /\ (refresh_credentials w.2).1 = Raise TypeError
  /\ calls (refresh_credentials w.2).2 = calls w.2.
Proof.
  cbv zeta. split; [reflexivity |]. split; [reflexivity |].
  apply (refresh_credentials_without_rsso _
           (mkSession [site_cookie "ScAuthTokenData" "0123456789abcdef"] 300));
    reflexivity.
Defined.

Lemma refresh_credentials_post (w : World) :
  wpe refresh_credentials
      (fun r w' =>
         match r with
         | Ok _ =>
             calls w' = S (S (calls w))
             /\ clock w' = clock w
             /\ (exists rmt,
                    refresh_token (client w')
                    = mkToken (Some rmt) (Some (clock w + twenty_years)))
             /\ exists s' v,
                  _current_session (client w') = Some s'
                  /\ jar_getitem "ScAuthTokenData" (cookies s') = Ok v
                  /\ _current_auth_token (client w') = Some v
         | Raise _ => True
         end) w.
Proof.
  destruct w as [c h n t p k tr]. destruct c as [dbg b r rt fp u s al tok fa].
  destruct rt as [tk ex].
  unfold wpe. run_refresh_credentials. cbn.
  repeat case_inner; try exact I.
  all: split; [reflexivity |].
  all: split; [reflexivity |].
  all: split; [eexists; reflexivity |].
  all: eexists; eexists; (split; [reflexivity |]); (split; [eassumption | reflexivity]).
Qed.

(** X16. A refresh that returns has called the provider exactly twice,
    has set the refresh token anew with an expiry twenty years after the
    clock reading, and leaves the cached auth token equal to the
    ScAuthTokenData cookie of the session's jar. *)
Theorem refresh_credentials_result (w w' : World) :
  refresh_credentials w = (Ok tt, w') ->
  calls w' = S (S (calls w))
  /\ clock w' = clock w
  /\ (exists rmt,
         refresh_token (client w') = mkToken (Some rmt) (Some (clock w + twenty_years)))
  /\ exists s' v,
       _current_session (client w') = Some s'
       /\ jar_getitem "ScAuthTokenData" (cookies s') = Ok v
       /\ _current_auth_token (client w') = Some v.
Proof.
  intros H. pose proof (refresh_credentials_post w) as Hp.
  unfold wpe in Hp. rewrite H in Hp. exact Hp.
Qed.

Lemma refresh_credentials_result_witness :
  let w := signed_in refresh_script in
  let w' := (refresh_credentials w).2 in
  refresh_credentials w = (Ok tt, w')
  /\ calls w' = S (S (calls w))
  /\ clock w' = clock w
  /\ (exists rmt,
         refresh_token (client w') = mkToken (Some rmt) (Some (clock w + twenty_years)))
  /\ exists s' v,
       _current_session (client w') = Some s'
       /\ jar_getitem "ScAuthTokenData" (cookies s') = Ok v
       /\ _current_auth_token (client w') = Some v.
Proof.
  cbv zeta.
  assert (H : refresh_credentials (signed_in refresh_script)
              = (Ok tt, (refresh_credentials (signed_in refresh_script)).2))
    by (vm_compute; reflexivity).
  split; [exact H |].
  apply (refresh_credentials_result _ _ H).
Defined.

(** ** Retries, continued *)

Lemma request_client (method url : string) (w : World) :
  client (request method url w).2 = client w.
Proof. unfold request, network. destruct (reply_exn _); reflexivity. Qed.

(** X17. When [do_request] returns a response after its first attempt
    failed, the manager is authenticated: the user is set and the auth-lost
    slot is empty again. *)
Theorem do_request_recovers (method url : string) (w w1 w' : World) (e1 : Exn) (resp : Reply) :
  request method url w = (Raise e1, w1) ->
  do_request method url w = (Ok resp, w') ->
  is_authenticated (client w') = true.
Proof.
  intros Hfirst Hdo.
  pose proof (do_request_run method url w) as Hrun. rewrite Hfirst in Hrun.
  pose proof (authenticate_ok (lost_auth e1 w1)) as Hok. unfold wpe in Hok.
  destruct (authenticate (lost_auth e1 w1)) as [[u | e] w3]; cbn in Hok;
    [| congruence].
  destruct Hok as (Hu & Huser & Hp).
  rewrite Hrun in Hdo.
  pose proof (request_client method url w3) as Hc. rewrite Hdo in Hc. cbn in Hc.
  rewrite Hc. apply is_authenticated_iff. unfold pending in Hp.
  split; [| exact Hp]. rewrite Huser.
  destruct u; [discriminate | exfalso; exact (is_Some_None Hu)].
Qed.

Lemma do_request_recovers_witness :
  let w := signed_in recover_script in
  request "GET" games_url w = (Raise (ProviderError 0), (request "GET" games_url w).2)
  /\ do_request "GET" games_url w
     = (Ok (answer (JObj [])), (do_request "GET" games_url w).2)
  /\ is_authenticated (client (do_request "GET" games_url w).2) = true.
Proof.
  cbv zeta.
  match goal with
  | |- ?A /\ ?B /\ _ =>
      assert (H1 : A) by (vm_compute; reflexivity);
      assert (H2 : B) by (vm_compute; reflexivity)
  end.
  split; [exact H1 |]. split; [exact H2 |].
  apply (do_request_recovers _ _ _ _ _ _ _ H1 H2).
Defined.

Lemma get_bearer_status :
  preserves (fun w => (user (client w), pending w)) _get_bearer.
Proof. unfold _get_bearer. pose proof get_user_json_status. frame. Qed.

(** X18. [get_json_from_request_strict] keeps an authenticated manager
    authenticated: whenever it returns a document, after however many
    retries, the user is set and the auth-lost slot is empty. *)
Theorem get_json_from_request_strict_keeps_authenticated
    (fuel : nat) (url : string) (include_default_headers : bool)
    (additional_headers : list LogPart) :
  forall (w w' : World) (j : Json),
    is_authenticated (client w) = true ->
    get_json_from_request_strict fuel url include_default_headers additional_headers w
    = Some (Ok j, w') ->
    is_authenticated (client w') = true.
Proof.
  induction fuel as [|fuel IH]; intros w w' j Hauth Hrun; [discriminate |].
  cbn [get_json_from_request_strict] in Hrun.
  match type of Hrun with
  | context [match ?m w with _ => _ end] =>
      assert (Hpre : is_authenticated (client (m w).2) = is_authenticated (client w));
      [| destruct (m w) as [[headers | e] w1]; [| discriminate] ]
  end.
  { destruct include_default_headers; [| reflexivity].
    apply is_authenticated_of_status. unfold bind.
    pose proof (get_bearer_status w) as Hb.
    destruct (_get_bearer w) as [[b | e] w1]; exact Hb. }
  cbn in Hpre.
  unfold bind at 1 in Hrun. unfold network at 1 in Hrun.
  destruct (reply_exn (provider w1 (calls w1))) as [e |].
  - unfold bind at 1 in Hrun. cbn [log emit] in Hrun.
    unfold bind at 1 in Hrun. cbn [set_auth_lost_callback modify_client] in Hrun.
    match type of Hrun with
    | context [authenticate ?w2] =>
        pose proof (authenticate_ok w2) as Hok; unfold wpe in Hok;
        destruct (authenticate w2) as [[u | e'] w3]; [| discriminate]
    end.
    cbn in Hok. destruct Hok as (Hu & Huser & Hp).
    apply (IH w3 w' j); [| exact Hrun].
    apply is_authenticated_iff. unfold pending in Hp. split; [| exact Hp].
    rewrite Huser. destruct u; [discriminate | exfalso; exact (is_Some_None Hu)].
  - unfold resp_json in Hrun.
    destruct (reply_json (provider w1 (calls w1))) as [doc |].
    + cbn in Hrun. injection Hrun as _ <-. cbn. congruence.
    + cbn in Hrun.
      match type of Hrun with
      | context [authenticate ?w2] =>
          pose proof (authenticate_ok w2) as Hok; unfold wpe in Hok;
          destruct (authenticate w2) as [[u | e'] w3]; [| discriminate]
      end.
      cbn in Hok. destruct Hok as (Hu & Huser & Hp).
      apply (IH w3 w' j); [| exact Hrun].
      apply is_authenticated_iff. unfold pending in Hp. split; [| exact Hp].
      rewrite Huser. destruct u; [discriminate | exfalso; exact (is_Some_None Hu)].
Qed.

Lemma get_json_from_request_strict_keeps_authenticated_witness :
  let w := (authenticate (signed_in retry_once_script)).2 in
  let run := get_json_from_request_strict 2 games_url true [] w in
  is_authenticated (client w) = true
  /\ run = Some (Ok (JObj []), (default (Ok JNull, w) run).2)
  /\ is_authenticated (client (default (Ok JNull, w) run).2) = true.
Proof.
  cbv zeta.
  match goal with
  | |- ?A /\ ?B /\ _ =>
      assert (H1 : A) by (vm_compute; reflexivity);
      assert (H2 : B) by (vm_compute; reflexivity)
  end.
  split; [exact H1 |]. split; [exact H2 |].
  apply (get_json_from_request_strict_keeps_authenticated 2 games_url true [] _ _ _ H1 H2).
Defined.
